(** * svgenotyper/genotype.py: the genotyping driver

    A shallow embedding of [genotype.py] (the inference driver of the
    structural-variant genotyper) and the properties of its glue logic:
    the output projector [get_output], the hyperparameter loader
    [load_model], the parameter-store loader [load_param_store] and the
    driver [run].

    Python values are modelled as follows.
    - A [dict] with string keys is a [gmap string _]; [d[k]] is [getitem],
      which raises [KeyError k] on a missing key, and [k in d] is [contains].
    - A numpy array is an [ndarray]: a scalar, or the list of its items along
      the first axis.  The arrays of posterior means hold doubles
      ([astype(dtype='float')] in [get_predictive_stats]), so elements are
      binary64 numbers, Rocq's primitive [float].
    - Exceptions are values of [exn]; a computation that may raise returns a
      [result].
    - The process state that [run] and the loaders touch (files, log, the
      Pyro parameter registry, the random number generators) is the record
      [world], threaded explicitly. *)

From Stdlib Require Import PrimFloat SpecFloat FloatOps ZArith.
From stdpp Require Import gmap strings list fin_maps.

Set Warnings "-register-all".

(** ** Exceptions and results *)

Inductive exn :=
| KeyError (key : string)          (* d[k] with k not in d *)
| IndexError                       (* an index out of range or too many indices *)
| TypeError                        (* an operand of the wrong type *)
| OverflowError                    (* an integer too large for a double *)
| RuntimeError (msg : string)      (* raised by [run] itself *)
| IsADirectoryError (path : string)
| LibraryError (name : string).    (* any other exception of a collaborator *)

Inductive result (A : Type) :=
| Ok (a : A)
| Raise (e : exn).
Arguments Ok {A} a.
Arguments Raise {A} e.

Global Instance result_ret : MRet result := @Ok.
Global Instance result_bind : MBind result := λ A B f m,
  match m with
  | Ok a => f a
  | Raise e => Raise e
  end.
Global Instance result_fmap : FMap result := λ A B f m,
  match m with
  | Ok a => Ok (f a)
  | Raise e => Raise e
  end.

Definition is_ok {A} (m : result A) : bool :=
  match m with
  | Ok _ => true
  | Raise _ => false
  end.

(** ** Python scalars, dictionaries and numpy arrays *)

(** The scalar values that the argument mapping and a hyperparameter file
    hold: [None], booleans, integers, floats and strings. *)
Inductive pyval :=
| PyNone
| PyBool (b : bool)
| PyInt (z : Z)
| PyFloat (x : float)
| PyStr (s : string).

(** What [json.load] gives back for a document of scalars: the scalar, or
    for a JSON object the [dict] of its members. *)
Inductive json :=
| JScalar (v : pyval)
| JObject (members : gmap string pyval).

Inductive ndarray :=
| Scalar (x : float)
| NDArray (items : list ndarray).

(** A value of an output field that is either the Python integer written in
    the source ([0]) or taken from an array. *)
Inductive cell :=
| CInt (z : Z)
| CArr (a : ndarray).

(** [d[k]] *)
Definition getitem {V} (d : gmap string V) (k : string) : result V :=
  match d !! k with
  | Some v => Ok v
  | None => Raise (KeyError k)
  end.

(** [k in d] *)
Definition contains {V} (k : string) (d : gmap string V) : bool :=
  match d !! k with
  | Some _ => true
  | None => false
  end.

(** [l[i]] for a list and a non-negative index. *)
Definition list_getitem {A} (l : list A) (i : nat) : result A :=
  match l !! i with
  | Some x => Ok x
  | None => Raise IndexError
  end.

(** [a[i]] for a non-negative [i]: the [i]-th item along the first axis;
    a scalar (or 0-d array) cannot be indexed. *)
Definition nd_index (a : ndarray) (i : nat) : result ndarray :=
  match a with
  | Scalar _ => Raise IndexError
  | NDArray items => list_getitem items i
  end.

(** [a[i, :]]: row [i] of an array of at least two dimensions. *)
Definition nd_index_row (a : ndarray) (i : nat) : result ndarray :=
  match a with
  | Scalar _ => Raise IndexError
  | NDArray items =>
      match items !! i with
      | Some (NDArray row) => Ok (NDArray row)
      | Some (Scalar _) => Raise IndexError
      | None => Raise IndexError
      end
  end.

Fixpoint nd_map (f : float → float) (a : ndarray) : ndarray :=
  match a with
  | Scalar x => Scalar (f x)
  | NDArray items => NDArray (List.map (nd_map f) items)
  end.

(** The double nearest to an integer (round to nearest, ties to even). *)
Definition float_of_Z (z : Z) : float :=
  SF2Prim (binary_normalize 53 1024 z 0 false).

(** The integers that convert to a double: those whose nearest double is
    finite.  [2^1024 - 2^970] lies half way between the largest double and
    [2^1024] and rounds up, so that it is the first integer without one;
    Python raises [OverflowError] ("int too large to convert to float") for
    it and for the larger ones. *)
Definition fits_double (z : Z) : bool :=
  (Z.abs z <? 2 ^ 1024 - 2 ^ 970)%Z.

(** The number of elements of an array; a numpy scalar has one. *)
Fixpoint nd_size (a : ndarray) : nat :=
  match a with
  | Scalar _ => 1
  | NDArray items => list_sum (List.map nd_size items)
  end.

(** [a * v] for an array (or numpy scalar) [a] and a Python scalar [v]:
    the product is taken element by element ([nd_scale]); a number is
    converted to a double, and [None] or a string is a type error.  An
    integer that does not convert to a double is multiplied as a Python
    object, element by element, and the first product raises
    [OverflowError]; an array without elements has no product to take and
    comes back as it is.  (This is numpy 1.x, for which the module was
    written; numpy 2 converts the integer before it looks at the array and
    raises for an array without elements as well.  The two agree wherever
    the array has an element.) *)
Definition nd_scale (a : ndarray) (y : float) : ndarray :=
  nd_map (λ x, x * y)%float a.

Definition nd_mul (a : ndarray) (v : pyval) : result ndarray :=
  match v with
  | PyFloat y => Ok (nd_scale a y)
  | PyInt z =>
      if fits_double z || Nat.eqb (nd_size a) 0
      then Ok (nd_scale a (float_of_Z z))
      else Raise OverflowError
  | PyBool b => Ok (nd_scale a (if b then 1 else 0)%float)
  | PyNone => Raise TypeError
  | PyStr _ => Raise TypeError
  end.

(** ** [get_output] *)

(** One output record: the dictionary literal of lines 84-99. *)
Record output_record := {
  vid : string;
  freq_z : ndarray;
  p_m_pe : cell;
  p_m_sr1 : ndarray;
  p_m_sr2 : ndarray;
  eps_pe : cell;
  eps_sr1 : ndarray;
  eps_sr2 : ndarray;
  phi_pe : cell;
  phi_sr1 : ndarray;
  phi_sr2 : ndarray
}.

(** [stats[site]['mean']] *)
Definition site_mean (stats : gmap string (gmap string ndarray)) (site : string)
  : result ndarray :=
  d ← getitem stats site; getitem d "mean".

(** [stats[site]['mean'][i]] *)
Definition site_at (stats : gmap string (gmap string ndarray)) (site : string)
    (i : nat) : result ndarray :=
  a ← site_mean stats site; nd_index a i.

(** [stats[site]['mean'][i] * params[prior]]: the left operand is evaluated
    first, then the right one, then the product. *)
Definition site_scaled (stats : gmap string (gmap string ndarray))
    (params : gmap string pyval) (site prior : string) (i : nat) : result ndarray :=
  x ← site_at stats site i;
  p ← getitem params prior;
  nd_mul x p.

(** The body of the loop of [get_output] for index [i] (lines 67-99). *)
Definition get_output_body (vids_list : list string)
    (stats : gmap string (gmap string ndarray)) (params : gmap string pyval)
    (i : nat) : result output_record :=
  vid0 ← list_getitem vids_list i;
  eps_pe0 ← (if contains "eps_pe" stats
             then CArr <$> site_scaled stats params "eps_pe" "mu_eps_pe" i
             else Ok (CInt 0));
  phi_pe0 ← (if contains "phi_pe" stats
             then CArr <$> site_at stats "phi_pe" i
             else Ok (CInt 0));
  p_m_pe0 ← (if contains "m_pe" stats
             then CArr <$> site_at stats "m_pe" i
             else Ok (CInt 0));
  vid1 ← list_getitem vids_list i;
  freq_z1 ← (a ← site_mean stats "z"; nd_index_row a i);
  p_m_sr1' ← site_at stats "m_sr1" i;
  p_m_sr2' ← site_at stats "m_sr2" i;
  eps_sr1' ← site_scaled stats params "eps_sr1" "mu_eps_sr1" i;
  eps_sr2' ← site_scaled stats params "eps_sr2" "mu_eps_sr2" i;
  phi_sr1' ← site_at stats "phi_sr1" i;
  phi_sr2' ← site_at stats "phi_sr2" i;
  Ok {| vid := vid1; freq_z := freq_z1; p_m_pe := p_m_pe0;
        p_m_sr1 := p_m_sr1'; p_m_sr2 := p_m_sr2';
        eps_pe := eps_pe0; eps_sr1 := eps_sr1'; eps_sr2 := eps_sr2';
        phi_pe := phi_pe0; phi_sr1 := phi_sr1'; phi_sr2 := phi_sr2' |}.

(** [for i in range(n_variants): output_list.append(...)], stopping at the
    first exception. *)
Fixpoint get_output_loop (body : nat → result output_record) (indices : list nat)
    (output_list : list output_record) : result (list output_record) :=
  match indices with
  | [] => Ok output_list
  | i :: rest =>
      r ← body i;
      get_output_loop body rest (output_list ++ [r])
  end.

Definition get_output (vids_list : list string)
    (stats : gmap string (gmap string ndarray)) (params : gmap string pyval)
  : result (list output_record) :=
  let n_variants := length vids_list in
  get_output_loop (get_output_body vids_list stats params) (seq 0 n_variants) [].

(** ** The process state and the collaborators *)

Inductive level := INFO | WARNING.

(** [torch.dtype] values the driver is called with. *)
Inductive dtype := torch_float32 | torch_float64.

(** An entry of the file system. *)
Inductive node :=
| File (content : string)
| Dir.

(** The keyword arguments of the model constructor (lines 31-34). *)
Record model_config (svtype_t : Type) := {
  cfg_svtype : svtype_t;
  cfg_k : pyval;
  cfg_tensor_dtype : dtype;
  cfg_mu_eps_pe : pyval;
  cfg_mu_eps_sr1 : pyval;
  cfg_mu_eps_sr2 : pyval;
  cfg_var_phi_pe : pyval;
  cfg_var_phi_sr1 : pyval;
  cfg_var_phi_sr2 : pyval;
  cfg_read_length : pyval;
  cfg_device : pyval;
  cfg_loss : pyval
}.
Arguments cfg_svtype {_} _.
Arguments cfg_k {_} _.
Arguments cfg_device {_} _.

(** A tensor of the parameter registry: its data and the device it is on. *)
Record tensor (payload_t device_t : Type) := {
  tensor_data : payload_t;
  tensor_device : device_t
}.
Arguments tensor_data {_ _} _.
Arguments tensor_device {_ _} _.

(** The state of the inference libraries that outlives a call of [run]:
    Pyro's process-wide parameter registry, the three random number
    generators and the two validation switches. *)
Record runtime (payload_t device_t generator_t : Type) := {
  registry : gmap string (tensor payload_t device_t);
  np_rng : generator_t;
  torch_rng : generator_t;
  pyro_rng : generator_t;
  validation : bool;
  dist_validation : bool
}.
Arguments registry {_ _ _} _.
Arguments np_rng {_ _ _} _.
Arguments torch_rng {_ _ _} _.
Arguments pyro_rng {_ _ _} _.
Arguments validation {_ _ _} _.
Arguments dist_validation {_ _ _} _.

(** The modules that [genotype.py] imports and calls: [constants.SVTypes],
    [model.SVGenotyperPyroModel], [io], and the parts of numpy, torch, pyro
    and json it uses.  Each is a function of what it is given: the
    constructor of the model and the inference calls read and update the
    [runtime], the loaders of [io] read the files.  A seeding call is given
    by the generator state it leaves behind or the exception it raises for
    the seed; the seed [None], on which numpy draws fresh entropy, is not
    covered. *)
Class Collaborators := {
  svtype : Type;
  generator : Type;
  payload : Type;
  device : Type;
  model : Type;
  data : Type;
  (** [SVTypes[name]] *)
  SVTypes_getitem : pyval → result svtype;
  (** the generator state that each seeding call leaves behind *)
  np_seeded : pyval → result generator;
  torch_seeded : pyval → result generator;
  pyro_seeded : pyval → result generator;
  (** [json.load] on the text of a file *)
  json_load : string → result json;
  (** [torch.device(name)] *)
  torch_device : pyval → result device;
  (** [torch.load(f, map_location)]: the pickled tensors, by name *)
  torch_load_impl : string → device → result (gmap string payload);
  model_init_impl :
    model_config svtype → runtime payload device generator →
    result model * runtime payload device generator;
  model_k : model → pyval;
  load_list_impl : gmap string node → string → result (list string);
  load_tensors_impl :
    gmap string node → string → svtype → dtype → pyval → result data;
  run_predictive_impl :
    model → data → pyval → pyval → runtime payload device generator →
    result (gmap string (gmap string ndarray)) * runtime payload device generator;
  run_discrete_impl :
    model → data → svtype → pyval → pyval → pyval →
    runtime payload device generator →
    result (gmap string (gmap string ndarray)) * runtime payload device generator;
  write_variant_output_impl :
    pyval → list output_record → gmap string node → result (gmap string node)
}.

(** The path separator of [posixpath], the character [/]. *)
Definition sep : Ascii.ascii := Ascii.ascii_of_nat 47.

(** [b.startswith(sep)] *)
Definition starts_with_sep (s : string) : bool :=
  match s with
  | String c _ => Ascii.eqb c sep
  | EmptyString => false
  end.

(** [path.endswith(sep)] *)
Fixpoint ends_with_sep (s : string) : bool :=
  match s with
  | EmptyString => false
  | String c EmptyString => Ascii.eqb c sep
  | String _ rest => ends_with_sep rest
  end.

(** [os.path.join(a, b)] of [posixpath]. *)
Definition os_path_join (a b : pyval) : result string :=
  match a, b with
  | PyStr path, PyStr b =>
      if starts_with_sep b then Ok b
      else if (String.eqb path "" || ends_with_sep path)%bool then Ok (path +:+ b)
      else Ok (path +:+ "/" +:+ b)
  | _, _ => Raise TypeError
  end.

(** [params[key]] for what [json.load] returned. *)
Definition json_getitem (params : json) (key : string) : result pyval :=
  match params with
  | JObject members => getitem members key
  | JScalar _ => Raise TypeError
  end.

(** [params is None] *)
Definition is_none (params : json) : bool :=
  match params with
  | JScalar PyNone => true
  | _ => false
  end.

Section Driver.
Context `{Collaborators}.

(** The calls that the driver makes into the libraries, in the order made.
    An inference call is recorded with the parameter registry it sees. *)
Inductive call :=
| CallClearParamStore
| CallSeedNumpy (seed : pyval)
| CallSeedTorch (seed : pyval)
| CallSeedPyro (seed : pyval)
| CallNewModel
| CallParamStoreLoad (path : string) (dev : device)
| CallLoadList (path : string)
| CallLoadTensors (base_path : string)
| CallRunPredictive (visible : gmap string (tensor payload device))
| CallRunDiscrete (visible : gmap string (tensor payload device))
| CallWriteOutput (path : pyval) (output_data : list output_record).

Record world := {
  files : gmap string node;
  log_config : option level;          (* the root logger's level once configured *)
  log : list (level * string);        (* the records handed to [logging] *)
  libs : runtime payload device generator;
  calls : list call
}.

(** Computations of the driver: they read and update the [world] and return
    a value or raise; the state reached when an exception is raised is kept. *)
Definition M (A : Type) : Type := world → result A * world.

Definition ret {A} (a : A) : M A := λ w, (Ok a, w).

Definition bind {A B} (c : M A) (k : A → M B) : M B := λ w,
  match c w with
  | (Ok a, w') => k a w'
  | (Raise e, w') => (Raise e, w')
  end.

Definition lift {A} (r : result A) : M A := λ w, (r, w).

Definition raise {A} (e : exn) : M A := λ w, (Raise e, w).

Definition set_libs (f : runtime payload device generator →
                         runtime payload device generator) : M unit := λ w,
  (Ok tt, {| files := files w; log_config := log_config w; log := log w;
             libs := f (libs w); calls := calls w |}).

Definition set_files (fs : gmap string node) : M unit := λ w,
  (Ok tt, {| files := fs; log_config := log_config w; log := log w;
             libs := libs w; calls := calls w |}).

Definition record_call (c : call) : M unit := λ w,
  (Ok tt, {| files := files w; log_config := log_config w; log := log w;
             libs := libs w; calls := calls w ++ [c] |}).

Definition get_files : M (gmap string node) := λ w, (Ok (files w), w).

Definition get_libs : M (runtime payload device generator) := λ w, (Ok (libs w), w).

(** A call of a library function that reads and updates the runtime. *)
Definition call_libs {A}
    (f : runtime payload device generator →
         result A * runtime payload device generator) : M A := λ w,
  let '(r, rt) := f (libs w) in
  (r, {| files := files w; log_config := log_config w; log := log w;
         libs := rt; calls := calls w |}).

(** [logging.basicConfig(level=...)]: configures the root logger unless it
    is configured already. *)
Definition logging_basicConfig (lv : level) : M unit := λ w,
  (Ok tt, {| files := files w;
             log_config := match log_config w with
                           | None => Some lv
                           | Some l => Some l
                           end;
             log := log w; libs := libs w; calls := calls w |}).

(** [logging.warning(msg)]: configures the root logger with the defaults if
    nothing did, and hands it a record of level WARNING. *)
Definition logging_warning (msg : string) : M unit := λ w,
  (Ok tt, {| files := files w;
             log_config := match log_config w with
                           | None => Some WARNING
                           | Some l => Some l
                           end;
             log := log w ++ [(WARNING, msg)];
             libs := libs w; calls := calls w |}).

Definition pyro_enable_validation (b : bool) : M unit :=
  set_libs (λ rt, {| registry := registry rt; np_rng := np_rng rt;
                     torch_rng := torch_rng rt; pyro_rng := pyro_rng rt;
                     validation := b; dist_validation := dist_validation rt |}).

Definition pyro_distributions_enable_validation (b : bool) : M unit :=
  set_libs (λ rt, {| registry := registry rt; np_rng := np_rng rt;
                     torch_rng := torch_rng rt; pyro_rng := pyro_rng rt;
                     validation := validation rt; dist_validation := b |}).

Definition set_registry (reg : gmap string (tensor payload device)) : M unit :=
  set_libs (λ rt, {| registry := reg; np_rng := np_rng rt;
                     torch_rng := torch_rng rt; pyro_rng := pyro_rng rt;
                     validation := validation rt;
                     dist_validation := dist_validation rt |}).

(** [pyro.clear_param_store()] *)
Definition pyro_clear_param_store : M unit :=
  bind (record_call CallClearParamStore) (λ _, set_registry ∅).

(** [np.random.seed(seed)] *)
Definition np_random_seed (seed : pyval) : M unit :=
  bind (record_call (CallSeedNumpy seed)) (λ _,
  bind (lift (np_seeded seed)) (λ g,
  set_libs (λ rt, {| registry := registry rt; np_rng := g;
                     torch_rng := torch_rng rt; pyro_rng := pyro_rng rt;
                     validation := validation rt;
                     dist_validation := dist_validation rt |}))).

(** [torch.random.manual_seed(seed)] *)
Definition torch_random_manual_seed (seed : pyval) : M unit :=
  bind (record_call (CallSeedTorch seed)) (λ _,
  bind (lift (torch_seeded seed)) (λ g,
  set_libs (λ rt, {| registry := registry rt; np_rng := np_rng rt;
                     torch_rng := g; pyro_rng := pyro_rng rt;
                     validation := validation rt;
                     dist_validation := dist_validation rt |}))).

(** [pyro.set_rng_seed(seed)] *)
Definition pyro_set_rng_seed (seed : pyval) : M unit :=
  bind (record_call (CallSeedPyro seed)) (λ _,
  bind (lift (pyro_seeded seed)) (λ g,
  set_libs (λ rt, {| registry := registry rt; np_rng := np_rng rt;
                     torch_rng := torch_rng rt; pyro_rng := g;
                     validation := validation rt;
                     dist_validation := dist_validation rt |}))).

(** [os.path.exists(path)] *)
Definition os_path_exists (path : string) : M bool := λ w,
  (Ok (contains path (files w)), w).

(** [open(path, 'r')] and reading the text of the file. *)
Definition open_read (path : string) : M string := λ w,
  match files w !! path with
  | Some (File content) => (Ok content, w)
  | Some Dir => (Raise (IsADirectoryError path), w)
  | None => (Raise (LibraryError "FileNotFoundError"), w)
  end.

Notation "x ⇐ c ; k" := (bind c (λ x, k))
  (at level 20, c at level 100, k at level 200, only parsing).
Notation "c >> k" := (bind c (λ _, k))
  (at level 100, k at level 200, right associativity, only parsing).

(** [load_model] (lines 153-159).  Falling off the end of the function
    returns [None]. *)
Definition load_model (base_path : string) : M json :=
  let model_path := base_path +:+ ".vars.json" in
  found ⇐ os_path_exists model_path;
  if found then
    f ⇐ open_read model_path;
    lift (json_load f)
  else
    logging_warning ("Could not locate model file " +:+ model_path) >>
    ret (JScalar PyNone).

(** [pyro.get_param_store().load(path, map_location=dev)] of Pyro's
    [ParamStoreDict]: the file is opened, [torch.load] unpickles its tensors
    onto [dev], and [set_state] stores each of them in the registry under
    its name, over an entry of that name and beside the other entries. *)
Definition param_store_load (path : string) (dev : device) : M unit :=
  record_call (CallParamStoreLoad path dev) >>
  content ⇐ open_read path;
  loaded ⇐ lift (torch_load_impl content dev);
  rt ⇐ get_libs;
  set_registry
    (((λ p, {| tensor_data := p; tensor_device := dev |}) <$> loaded) ∪ registry rt).

(** [load_param_store] (lines 162-164). *)
Definition load_param_store (base_path : string) (device_name : pyval) : M unit :=
  pyro_clear_param_store >>
  dev ⇐ lift (torch_device device_name);
  param_store_load (base_path +:+ ".param_store.pyro") dev.

(** [SVGenotyperPyroModel(...)] *)
Definition SVGenotyperPyroModel (cfg : model_config svtype) : M model :=
  record_call CallNewModel >>
  call_libs (model_init_impl cfg).

(** [io.load_list(path)] *)
Definition io_load_list (path : string) : M (list string) :=
  record_call (CallLoadList path) >>
  fs ⇐ get_files;
  lift (load_list_impl fs path).

(** [io.load_tensors(base_path, svtype, tensor_dtype, device)] *)
Definition io_load_tensors (base_path : string) (sv : svtype)
    (tensor_dtype : dtype) (device_name : pyval) : M data :=
  record_call (CallLoadTensors base_path) >>
  fs ⇐ get_files;
  lift (load_tensors_impl fs base_path sv tensor_dtype device_name).

(** [model.run_predictive(data, n_samples, n_iter)] *)
Definition model_run_predictive (m : model) (d : data) (n_samples n_iter : pyval)
  : M (gmap string (gmap string ndarray)) :=
  rt ⇐ get_libs;
  record_call (CallRunPredictive (registry rt)) >>
  call_libs (run_predictive_impl m d n_samples n_iter).

(** [model.run_discrete(data, svtype, n_states, log_freq, n_samples)] *)
Definition model_run_discrete (m : model) (d : data) (sv : svtype)
    (n_states log_freq n_samples : pyval)
  : M (gmap string (gmap string ndarray)) :=
  rt ⇐ get_libs;
  record_call (CallRunDiscrete (registry rt)) >>
  call_libs (run_discrete_impl m d sv n_states log_freq n_samples).

(** [io.write_variant_output(output_path, output_data)] *)
Definition io_write_variant_output (output_path : pyval)
    (output_data : list output_record) : M unit :=
  record_call (CallWriteOutput output_path output_data) >>
  fs ⇐ get_files;
  fs' ⇐ lift (write_variant_output_impl output_path output_data fs);
  set_files fs'.

(** [run] (lines 13-54).  Keyword arguments are evaluated from left to
    right before the call they belong to; [posterior.update(d)] keeps the
    entries of [posterior] whose key is not in [d].  Where [get_output] is
    called [params] is a [dict], for [params['k']] has been read. *)
Definition run (args : gmap string pyval) (default_dtype : dtype)
  : M (list output_record) :=
  logging_basicConfig INFO >>
  pyro_enable_validation true >>
  pyro_distributions_enable_validation true >>
  pyro_clear_param_store >>
  seed1 ⇐ lift (getitem args "random_seed");
  np_random_seed seed1 >>
  seed2 ⇐ lift (getitem args "random_seed");
  torch_random_manual_seed seed2 >>
  seed3 ⇐ lift (getitem args "random_seed");
  pyro_set_rng_seed seed3 >>
  svtype_name ⇐ lift (getitem args "svtype");
  sv ⇐ lift (SVTypes_getitem svtype_name);
  model_dir ⇐ lift (getitem args "model_dir");
  model_name ⇐ lift (getitem args "model_name");
  base_path ⇐ lift (os_path_join model_dir model_name);
  params ⇐ load_model base_path;
  if is_none params then
    raise (RuntimeError ("Model at not found: " +:+ base_path))
  else
    k ⇐ lift (json_getitem params "k");
    mu_eps_pe ⇐ lift (json_getitem params "mu_eps_pe");
    mu_eps_sr1 ⇐ lift (json_getitem params "mu_eps_sr1");
    mu_eps_sr2 ⇐ lift (json_getitem params "mu_eps_sr2");
    var_phi_pe ⇐ lift (json_getitem params "var_phi_pe");
    var_phi_sr1 ⇐ lift (json_getitem params "var_phi_sr1");
    var_phi_sr2 ⇐ lift (json_getitem params "var_phi_sr2");
    read_length ⇐ lift (json_getitem params "read_length");
    device1 ⇐ lift (getitem args "device");
    loss ⇐ lift (json_getitem params "loss");
    m ⇐ SVGenotyperPyroModel
              {| cfg_svtype := sv; cfg_k := k; cfg_tensor_dtype := default_dtype;
                 cfg_mu_eps_pe := mu_eps_pe; cfg_mu_eps_sr1 := mu_eps_sr1;
                 cfg_mu_eps_sr2 := mu_eps_sr2; cfg_var_phi_pe := var_phi_pe;
                 cfg_var_phi_sr1 := var_phi_sr1; cfg_var_phi_sr2 := var_phi_sr2;
                 cfg_read_length := read_length; cfg_device := device1;
                 cfg_loss := loss |};
    device2 ⇐ lift (getitem args "device");
    load_param_store base_path device2 >>
    vids_list ⇐ io_load_list (base_path +:+ ".vids.list");
    device3 ⇐ lift (getitem args "device");
    d ⇐ io_load_tensors base_path sv default_dtype device3;
    n_samples ⇐ lift (getitem args "genotype_predictive_samples");
    n_iter ⇐ lift (getitem args "genotype_predictive_iter");
    posterior ⇐ model_run_predictive m d n_samples n_iter;
    log_freq ⇐ lift (getitem args "genotype_discrete_log_freq");
    n_discrete ⇐ lift (getitem args "genotype_discrete_samples");
    discrete_posterior ⇐ model_run_discrete m d sv (model_k m) log_freq n_discrete;
    let posterior' := discrete_posterior ∪ posterior in
    members ⇐ lift (match params with
                        | JObject members => Ok members
                        | JScalar _ => Raise TypeError
                        end);
    output ⇐ lift (get_output vids_list posterior' members);
    output_path ⇐ lift (getitem args "output");
    io_write_variant_output output_path output >>
    ret output.

End Driver.

(** ** The data model of the statistics, as decidable predicates *)

(** The sites that [get_output] reads without a membership test, in the
    order it reads them, and the three it tests for. *)
Definition required_sites : list string :=
  ["z"; "m_sr1"; "m_sr2"; "eps_sr1"; "eps_sr2"; "phi_sr1"; "phi_sr2"].

Definition optional_sites : list string := ["eps_pe"; "phi_pe"; "m_pe"].

Definition is_array (a : ndarray) : bool :=
  match a with
  | NDArray _ => true
  | Scalar _ => false
  end.

(** What is asked of the items of a ['mean'] array: an item of the one of
    site [z] is a row (it is read with [[i, :]]). *)
Definition item_ok (site : string) (item : ndarray) : bool :=
  if String.eqb site "z" then is_array item else true.

(** [stats[site]['mean']], when both keys are there. *)
Definition mean_of (stats : gmap string (gmap string ndarray)) (site : string)
  : option ndarray :=
  match stats !! site with
  | Some d => d !! "mean"
  | None => None
  end.

(** The ['mean'] array of [site], if there is one, has one item per variant
    (a row, for [z]). *)
Definition shape_ok (n : nat) (stats : gmap string (gmap string ndarray))
    (site : string) : bool :=
  match mean_of stats site with
  | Some (NDArray items) => Nat.eqb (length items) n && forallb (item_ok site) items
  | Some (Scalar _) => false
  | None => true
  end.

(** [site] has a ['mean'] array. *)
Definition has_mean (stats : gmap string (gmap string ndarray)) (site : string)
  : bool :=
  match mean_of stats site with
  | Some _ => true
  | None => false
  end.

(** The Python scalars that convert to a double: a boolean, a float, and
    an integer that is not too large for one. *)
Definition converts_to_double (v : pyval) : bool :=
  match v with
  | PyBool _ | PyFloat _ => true
  | PyInt z => fits_double z
  | PyNone | PyStr _ => false
  end.

(** The prior [key], if [params] has it, is a number that converts to a
    double. *)
Definition prior_ok (params : gmap string pyval) (key : string) : bool :=
  match params !! key with
  | Some v => converts_to_double v
  | None => true
  end.

(** Every statistic and prior that is present is as the data model has it:
    a ['mean'] array with one item per variant, a prior that is a number
    and converts to a double. *)
Definition present_ok (n : nat) (stats : gmap string (gmap string ndarray))
    (params : gmap string pyval) : bool :=
  forallb (shape_ok n stats) (optional_sites ++ required_sites)
  && forallb (prior_ok params) ["mu_eps_pe"; "mu_eps_sr1"; "mu_eps_sr2"].

(** The statistics and priors that [get_output] needs are there and as the
    data model has them; the paired-end sites may be absent. *)
Definition well_formed (n : nat) (stats : gmap string (gmap string ndarray))
    (params : gmap string pyval) : bool :=
  present_ok n stats params
  && forallb (has_mean stats) required_sites
  && forallb (λ site, negb (contains site stats) || has_mean stats site)
             optional_sites
  && contains "mu_eps_sr1" params && contains "mu_eps_sr2" params
  && (negb (contains "eps_pe" stats) || contains "mu_eps_pe" params).

(** Errors that are key-lookup errors. *)
Definition is_key_error (e : exn) : bool :=
  match e with
  | KeyError _ => true
  | _ => false
  end.

(** The value that the source computes for a paired-end field: the given
    expression when the site is in [stats], the integer [0] otherwise. *)
Definition optional_field (stats : gmap string (gmap string ndarray))
    (site : string) (value : result ndarray) : result cell :=
  if contains site stats then CArr <$> value else Ok (CInt 0).


(** ** Concrete inputs

    The scenario of the specification's section 8, item 6: two variants,
    the hyperparameters of [m.vars.json], and statistics without the
    paired-end sites; and the same statistics with the paired-end sites. *)

Definition scenario_vids : list string := ["sv1"; "sv2"].

Definition scenario_params : gmap string pyval :=
  list_to_map
    [("k", PyInt 2); ("mu_eps_pe", PyFloat 1); ("mu_eps_sr1", PyFloat 1);
     ("mu_eps_sr2", PyFloat 1); ("var_phi_pe", PyInt 1); ("var_phi_sr1", PyInt 1);
     ("var_phi_sr2", PyInt 1); ("read_length", PyInt 150); ("loss", PyStr "elbo")].

(** [{'mean': np.array(xs)}] for a vector [xs]. *)
Definition mean_vector (xs : list float) : gmap string ndarray :=
  {[ "mean" := NDArray (Scalar <$> xs) ]}.

(** [{'mean': np.array(rows)}] for a matrix given by its rows. *)
Definition mean_matrix (rows : list (list float)) : gmap string ndarray :=
  {[ "mean" := NDArray ((λ row, NDArray (Scalar <$> row)) <$> rows) ]}.

Definition scenario_stats : gmap string (gmap string ndarray) :=
  list_to_map
    [("z", mean_matrix [[0.75; 0.25]; [0.125; 0.875]]%float);
     ("m_sr1", mean_vector [0.5; 0.25]%float);
     ("m_sr2", mean_vector [1; 0]%float);
     ("eps_sr1", mean_vector [0.0625; 0.5]%float);
     ("eps_sr2", mean_vector [0.25; 2]%float);
     ("phi_sr1", mean_vector [1.5; 3]%float);
     ("phi_sr2", mean_vector [0.5; 4]%float)].

Definition paired_end_stats : gmap string (gmap string ndarray) :=
  <["eps_pe" := mean_vector [0.5; 0.125]%float]>
  (<["phi_pe" := mean_vector [2; 1]%float]>
  (<["m_pe" := mean_vector [0.25; 0.75]%float]> scenario_stats)).

(** The same hyperparameters with a paired-end noise prior of one half. *)
Definition halved_params : gmap string pyval :=
  <["mu_eps_pe" := PyFloat 0.5]> scenario_params.

(** The records that [get_output] returns in the scenario. *)
Definition scenario_output : list output_record :=
  [ {| vid := "sv1"; freq_z := NDArray [Scalar 0.75; Scalar 0.25];
       p_m_pe := CInt 0; p_m_sr1 := Scalar 0.5; p_m_sr2 := Scalar 1;
       eps_pe := CInt 0; eps_sr1 := Scalar 0.0625; eps_sr2 := Scalar 0.25;
       phi_pe := CInt 0; phi_sr1 := Scalar 1.5; phi_sr2 := Scalar 0.5 |};
    {| vid := "sv2"; freq_z := NDArray [Scalar 0.125; Scalar 0.875];
       p_m_pe := CInt 0; p_m_sr1 := Scalar 0.25; p_m_sr2 := Scalar 0;
       eps_pe := CInt 0; eps_sr1 := Scalar 0.5; eps_sr2 := Scalar 2;
       phi_pe := CInt 0; phi_sr1 := Scalar 3; phi_sr2 := Scalar 4 |} ]%float.

(** A computation that returns or raises a key-lookup error. *)
Definition key_or_ok {A} (m : result A) : Prop :=
  match m with
  | Ok _ => True
  | Raise e => is_key_error e = true
  end.

(** Statistics in which the mean of [z] is a vector with one entry per
    variant instead of a matrix, and the other sites are absent. *)
Definition flat_z_stats : gmap string (gmap string ndarray) :=
  {[ "z" := mean_vector [1]%float ]}.

(** ** Reading the trace of calls *)

Definition is_clear `{Collaborators} (c : call) : bool :=
  match c with
  | CallClearParamStore => true
  | _ => false
  end.

(** The number of times the parameter registry was cleared. *)
Definition count_clears `{Collaborators} (cs : list call) : nat :=
  length (filter (λ c, is_clear c = true) cs).

(** The calls that run inference or write the output. *)
Definition is_inference_or_output `{Collaborators} (c : call) : bool :=
  match c with
  | CallRunPredictive _ | CallRunDiscrete _ | CallWriteOutput _ _ => true
  | _ => false
  end.

(** The registry that a parameter-store file holds once unpickled onto a
    device. *)
Definition on_device `{Collaborators} (dev : device) (loaded : gmap string payload)
  : gmap string (tensor payload device) :=
  (λ p, {| tensor_data := p; tensor_device := dev |}) <$> loaded.

(** ** A small instance of the collaborators

    It stands in for the libraries when the driver is run on concrete
    inputs: generators are the seed they were given, the model is its
    configuration, a hyperparameter file holds the scenario's
    hyperparameters whatever its text (the text [null] apart), and inference
    returns the scenario's statistics. *)

Definition stub_seeded (seed : pyval) : result Z :=
  match seed with
  | PyInt z => Ok z
  | _ => Raise TypeError
  end.

Definition stub_SVTypes (name : pyval) : result string :=
  match name with
  | PyStr s =>
      if bool_decide (s ∈ ["DEL"; "DUP"; "INS"; "INV"; "BND"])
      then Ok s else Raise (KeyError s)
  | _ => Raise (KeyError "")
  end.

Definition stub_json_load (text : string) : result json :=
  if String.eqb text "null" then Ok (JScalar PyNone)
  else Ok (JObject scenario_params).

Definition stub_torch_device (name : pyval) : result string :=
  match name with
  | PyStr s => Ok s
  | _ => Raise TypeError
  end.

Definition stub_torch_load (content dev : string) : result (gmap string (list float)) :=
  Ok {[ "pi_sr1" := [0.5]%float; "pi_sr2" := [0.25]%float ]}.

Definition stub_load_list (fs : gmap string node) (path : string)
  : result (list string) :=
  match fs !! path with
  | Some (File _) => Ok scenario_vids
  | _ => Raise (LibraryError "FileNotFoundError")
  end.

Definition stub_write (path : pyval) (output_data : list output_record)
    (fs : gmap string node) : result (gmap string node) :=
  match path with
  | PyStr p => Ok (<[p := File "sv1 sv2"]> fs)
  | _ => Raise TypeError
  end.

Global Instance stub : Collaborators := {|
  svtype := string;
  generator := Z;
  payload := list float;
  device := string;
  model := model_config string;
  data := unit;
  SVTypes_getitem := stub_SVTypes;
  np_seeded := stub_seeded;
  torch_seeded := stub_seeded;
  pyro_seeded := stub_seeded;
  json_load := stub_json_load;
  torch_device := stub_torch_device;
  torch_load_impl := stub_torch_load;
  model_init_impl := λ cfg rt, (Ok cfg, rt);
  model_k := cfg_k;
  load_list_impl := stub_load_list;
  load_tensors_impl := λ _ _ _ _ _, Ok tt;
  run_predictive_impl := λ _ _ _ _ rt,
    (Ok (filter (λ kv, kv.1 ≠ "z") scenario_stats), rt);
  run_discrete_impl := λ _ _ _ _ _ _ rt,
    (Ok (filter (λ kv, kv.1 = "z") scenario_stats), rt);
  write_variant_output_impl := stub_write
|}.

(** The arguments of a run on the model [models/m]. *)
Definition stub_args : gmap string pyval :=
  list_to_map
    [("random_seed", PyInt 42); ("model_dir", PyStr "models");
     ("model_name", PyStr "m"); ("device", PyStr "cpu"); ("svtype", PyStr "DEL");
     ("genotype_predictive_samples", PyInt 100);
     ("genotype_predictive_iter", PyInt 10);
     ("genotype_discrete_log_freq", PyInt 50);
     ("genotype_discrete_samples", PyInt 100);
     ("output", PyStr "out.tsv")].

(** The files of a trained model [models/m]. *)
Definition model_files : gmap string node :=
  list_to_map
    [("models/m.vars.json", File "{}");
     ("models/m.param_store.pyro", File "pickle");
     ("models/m.vids.list", File "sv1 sv2")].

(** A fresh process, and one in which an earlier run left parameters in the
    registry, generator states and log records behind. *)
Definition fresh_world (fs : gmap string node) : world (H := stub) :=
  {| files := fs; log_config := None; log := [];
     libs := {| registry := ∅; np_rng := 0%Z; torch_rng := 0%Z; pyro_rng := 0%Z;
                validation := false; dist_validation := false |};
     calls := [] |}.

Definition used_world (fs : gmap string node) : world (H := stub) :=
  {| files := fs; log_config := Some WARNING; log := [(WARNING, "earlier")];
     libs := {| registry := {[ "stale" := {| tensor_data := [1]%float;
                                              tensor_device := "cuda" |} ]};
                np_rng := 7%Z; torch_rng := 8%Z; pyro_rng := 9%Z;
                validation := false; dist_validation := true |};
     calls := [CallClearParamStore] |}.

(** ** Two runs side by side

    Two states [agree] when they hold the same files and their runtimes
    coincide on the components that a [mask] selects; a computation is
    [related] from one such relation to another when, started in two
    related states, it gives the same result, leaves the same files, and,
    when it returns, leaves states related by the second relation. *)

Record mask := {
  on_registry : bool;
  on_np_rng : bool;
  on_torch_rng : bool;
  on_pyro_rng : bool;
  on_validation : bool;
  on_dist_validation : bool
}.

Definition no_component : mask :=
  {| on_registry := false; on_np_rng := false; on_torch_rng := false;
     on_pyro_rng := false; on_validation := false; on_dist_validation := false |}.

Definition every_component : mask :=
  {| on_registry := true; on_np_rng := true; on_torch_rng := true;
     on_pyro_rng := true; on_validation := true; on_dist_validation := true |}.

Definition agree `{Collaborators} (m : mask) (w1 w2 : world) : Prop :=
  files w1 = files w2 ∧
  (on_registry m = true → registry (libs w1) = registry (libs w2)) ∧
  (on_np_rng m = true → np_rng (libs w1) = np_rng (libs w2)) ∧
  (on_torch_rng m = true → torch_rng (libs w1) = torch_rng (libs w2)) ∧
  (on_pyro_rng m = true → pyro_rng (libs w1) = pyro_rng (libs w2)) ∧
  (on_validation m = true → validation (libs w1) = validation (libs w2)) ∧
  (on_dist_validation m = true →
   dist_validation (libs w1) = dist_validation (libs w2)).

Definition related `{Collaborators} {A} (m : mask) (c : M A) (m' : mask) : Prop :=
  ∀ w1 w2, agree m w1 w2 →
    (c w1).1 = (c w2).1 ∧
    files (c w1).2 = files (c w2).2 ∧
    (is_ok (c w1).1 = true → agree m' (c w1).2 (c w2).2).

(** ** The phases of a run

    Relative to the trace [T0] and the files [F0] that a run starts from:
    the run is [Quiet n] while it has cleared the registry [n] times and has
    not called inference; it is [Loaded] once it has cleared the registry
    twice and the registry holds what the parameter-store file holds; it has
    [Entered] inference once it has called [run_predictive], which then saw
    such a registry after two clears. *)

Definition is_predictive `{Collaborators} (c : call) : bool :=
  match c with
  | CallRunPredictive _ => true
  | _ => false
  end.

Inductive phase :=
| Quiet (n : nat)
| Loaded
| Entered.

(** [reg] is what some parameter-store file of [F0] holds, on some device. *)
Definition from_file `{Collaborators} (F0 : gmap string node)
    (reg : gmap string (tensor payload device)) : Prop :=
  ∃ base_path dev content loaded,
    F0 !! (base_path +:+ ".param_store.pyro") = Some (File content) ∧
    torch_load_impl content dev = Ok loaded ∧
    reg = on_device dev loaded.

(** [t] are new calls, [n] of them clears, none of them [run_predictive]. *)
Definition quiet_trace `{Collaborators} (T0 : list call) (n : nat) (w : world)
  : Prop :=
  ∃ t, calls w = T0 ++ t ∧ count_clears t = n ∧
       Forall (λ c, is_predictive c = false) t.

Definition stage `{Collaborators} (T0 : list call) (F0 : gmap string node)
    (s : phase) (w : world) : Prop :=
  match s with
  | Quiet n => files w = F0 ∧ quiet_trace T0 n w
  | Loaded =>
      files w = F0 ∧ quiet_trace T0 2 w ∧ from_file F0 (registry (libs w))
  | Entered =>
      ∃ t reg t',
        calls w = T0 ++ t ++ CallRunPredictive reg :: t' ∧
        count_clears t = 2 ∧
        Forall (λ c, is_predictive c = false) t ∧
        Forall (λ c, is_predictive c = false) t' ∧
        from_file F0 reg
  end.

Definition good `{Collaborators} (T0 : list call) (F0 : gmap string node)
    (w : world) : Prop :=
  ∃ s, stage T0 F0 s w.

(** [c], started in a state that satisfies [P], returns in a state that
    satisfies [Q] or raises in a state that satisfies [E]. *)
Definition triple `{Collaborators} {A} (P : world → Prop) (c : M A)
    (Q : A → world → Prop) (E : world → Prop) : Prop :=
  ∀ w, P w →
    match c w with
    | (Ok a, w') => Q a w'
    | (Raise _, w') => E w'
    end.

(** The registry that the stub's parameter-store file holds, on the CPU. *)
Definition stub_registry : gmap string (tensor (@payload stub) (@device stub)) :=
  on_device (H := stub) "cpu"
    {[ "pi_sr1" := [0.5]%float; "pi_sr2" := [0.25]%float ]}.

(** ** When [get_output] can read its inputs *)

(** The ['mean'] array of [site] is there and has at least [n] items, the
    first [n] of them rows for [z]. *)
Definition rows_ok (n : nat) (stats : gmap string (gmap string ndarray))
    (site : string) : bool :=
  match mean_of stats site with
  | Some (NDArray items) =>
      Nat.leb n (length items) && forallb (item_ok site) (take n items)
  | Some (Scalar _) => false
  | None => false
  end.

(** [params[key]] is there and is a number that converts to a double. *)
Definition number_at (params : gmap string pyval) (key : string) : bool :=
  match params !! key with
  | Some v => converts_to_double v
  | None => false
  end.

(** The sites whose mean is multiplied by a prior. *)
Definition rate_sites : list string := ["eps_pe"; "eps_sr1"; "eps_sr2"].

(** None of the first [n] items of the ['mean'] array of a site that is
    multiplied by a prior is an array without elements. *)
Definition rates_nonempty (n : nat) (stats : gmap string (gmap string ndarray))
  : bool :=
  forallb (λ site, match mean_of stats site with
                   | Some (NDArray items) =>
                       forallb (λ x, negb (Nat.eqb (nd_size x) 0)) (take n items)
                   | _ => true
                   end) rate_sites.

(** Everything that [get_output] reads for [n] variants is there: the
    required sites, the paired-end sites that are keys of [stats], the two
    split-read priors, and the paired-end prior when [eps_pe] is a key. *)
Definition readable (n : nat) (stats : gmap string (gmap string ndarray))
    (params : gmap string pyval) : bool :=
  forallb (rows_ok n stats) required_sites
  && forallb (λ site, negb (contains site stats) || rows_ok n stats site)
             optional_sites
  && number_at params "mu_eps_sr1" && number_at params "mu_eps_sr2"
  && (negb (contains "eps_pe" stats) || number_at params "mu_eps_pe").

(** The hyperparameters of the scenario with a split-read prior that is an
    integer of 401 digits, as [json.load] reads it from such a literal. *)
Definition overflowing_params : gmap string pyval :=
  <["mu_eps_sr1" := PyInt (10 ^ 400)]> scenario_params.

(** What [get_output] sees of a site: whether it is a key of [stats], and
    its ['mean'] entry if it has one. *)
Definition site_view (stats : gmap string (gmap string ndarray)) (site : string)
  : option (option ndarray) :=
  (λ d : gmap string ndarray, d !! "mean") <$> stats !! site.

(** The keys of [params] that [get_output] reads. *)
Definition output_priors : list string :=
  ["mu_eps_pe"; "mu_eps_sr1"; "mu_eps_sr2"].

(** ** [get_global_stats] (lines 103-119) *)

Definition global_sites : list string := ["pi_sr1"; "pi_sr2"; "pi_pe"; "pi_rd"].

(** The dictionary [global_site_scales]: it has no entry for [pi_rd]. *)
Definition global_site_scales : gmap string float :=
  list_to_map [("pi_sr1", 1); ("pi_sr2", 1); ("pi_pe", 1)]%float.

(** [stats[site][entry] * global_site_scales[site]] *)
Definition global_scaled (stats : gmap string (gmap string ndarray))
    (site entry : string) : result ndarray :=
  d ← getitem stats site;
  a ← getitem d entry;
  scale ← getitem global_site_scales site;
  Ok (nd_scale a scale).

(** The body of the loop over [global_sites] (lines 116-118). *)
Definition global_stats_body (stats : gmap string (gmap string ndarray))
    (global_stats : gmap string ndarray) (site : string)
  : result (gmap string ndarray) :=
  if contains site stats then
    m ← global_scaled stats site "mean";
    let global_stats1 := <[site +:+ "_mean" := m]> global_stats in
    s ← global_scaled stats site "std";
    Ok (<[site +:+ "_std" := s]> global_stats1)
  else Ok global_stats.

Fixpoint global_stats_loop (stats : gmap string (gmap string ndarray))
    (sites : list string) (global_stats : gmap string ndarray)
  : result (gmap string ndarray) :=
  match sites with
  | [] => Ok global_stats
  | site :: rest =>
      global_stats' ← global_stats_body stats global_stats site;
      global_stats_loop stats rest global_stats'
  end.

(** [get_global_stats(stats, model)]; the body never uses [model]. *)
Definition get_global_stats {Model : Type}
    (stats : gmap string (gmap string ndarray)) (model : Model)
  : result (gmap string ndarray) :=
  global_stats_loop stats global_sites ∅.

(** The sites of [global_sites] that have a scale. *)
Definition scaled_sites : list string := ["pi_sr1"; "pi_sr2"; "pi_pe"].

(** What [get_global_stats] sees of a site: whether it is a key of [stats],
    and its ['mean'] and ['std'] entries. *)
Definition global_view (stats : gmap string (gmap string ndarray)) (site : string)
  : option (option ndarray * option ndarray) :=
  (λ d : gmap string ndarray, (d !! "mean", d !! "std")) <$> stats !! site.

(** A summary of a global site. *)
Definition pi_summary : gmap string ndarray :=
  list_to_map [("mean", Scalar 0.5); ("std", Scalar 0.125)]%float.

(** Global statistics with a summary of [pi_sr1] and of [pi_pe]. *)
Definition global_example : gmap string (gmap string ndarray) :=
  list_to_map
    [("pi_sr1", pi_summary);
     ("pi_pe", list_to_map [("mean", Scalar 0.25); ("std", Scalar 0.0625)]);
     ("z", mean_vector [1])]%float.

(** What [get_global_stats] makes of them. *)
Definition global_summary : gmap string ndarray :=
  list_to_map
    [("pi_sr1_mean", Scalar 0.5); ("pi_sr1_std", Scalar 0.125);
     ("pi_pe_mean", Scalar 0.25); ("pi_pe_std", Scalar 0.0625)]%float.

(** ** [get_discrete_stats] (lines 127-129) *)

Definition discrete_sites : list string := ["m_pe"; "m_sr1"; "m_sr2"].

Section DiscreteStats.

(** The arrays of samples, and numpy's
    [a.astype(dtype='float').mean(axis=0).squeeze()] on one of them. *)
Context {samples_array : Type} (posterior_mean : samples_array → result ndarray).

(** The dictionary comprehension: for each key in turn, the value
    [{'mean': ...}] is computed and stored under the key. *)
Fixpoint discrete_stats_loop (samples : gmap string samples_array)
    (keys : list string) (acc : gmap string (gmap string ndarray))
  : result (gmap string (gmap string ndarray)) :=
  match keys with
  | [] => Ok acc
  | key :: rest =>
      a ← getitem samples key;
      m ← posterior_mean a;
      discrete_stats_loop samples rest (<[key := {[ "mean" := m ]}]> acc)
  end.

Definition get_discrete_stats (samples : gmap string samples_array)
  : result (gmap string (gmap string ndarray)) :=
  discrete_stats_loop samples discrete_sites ∅.

End DiscreteStats.

(** A stand-in for the reduction, on samples that are arrays: the first
    item along the first axis. *)
Definition first_sample (a : ndarray) : result ndarray := nd_index a 0.

(** Samples of the three membership sites and of [z]. *)
Definition discrete_samples : gmap string ndarray :=
  list_to_map
    [("m_pe", NDArray [Scalar 1; Scalar 0]);
     ("m_sr1", NDArray [Scalar 0; Scalar 0]);
     ("m_sr2", NDArray [Scalar 1; Scalar 1]);
     ("z", NDArray [Scalar 2; Scalar 1])]%float.

(** ** The order of the library calls of [run]

    The kind of a call, without its arguments. *)
Inductive operation :=
| OpClearParamStore
| OpSeedNumpy
| OpSeedTorch
| OpSeedPyro
| OpNewModel
| OpParamStoreLoad
| OpLoadList
| OpLoadTensors
| OpRunPredictive
| OpRunDiscrete
| OpWriteOutput.

Definition operation_of `{Collaborators} (c : call) : operation :=
  match c with
  | CallClearParamStore => OpClearParamStore
  | CallSeedNumpy _ => OpSeedNumpy
  | CallSeedTorch _ => OpSeedTorch
  | CallSeedPyro _ => OpSeedPyro
  | CallNewModel => OpNewModel
  | CallParamStoreLoad _ _ => OpParamStoreLoad
  | CallLoadList _ => OpLoadList
  | CallLoadTensors _ => OpLoadTensors
  | CallRunPredictive _ => OpRunPredictive
  | CallRunDiscrete _ => OpRunDiscrete
  | CallWriteOutput _ _ => OpWriteOutput
  end.

(** The calls of lines 19-53, in the order of the source. *)
Definition run_operations : list operation :=
  [OpClearParamStore; OpSeedNumpy; OpSeedTorch; OpSeedPyro; OpNewModel;
   OpClearParamStore; OpParamStoreLoad; OpLoadList; OpLoadTensors;
   OpRunPredictive; OpRunDiscrete; OpWriteOutput].

(** [c] makes the calls [ops], in this order, when it returns, and the
    first of them, up to the one that fails, when it raises. *)
Definition emits `{Collaborators} {A} (c : M A) (ops : list operation) : Prop :=
  ∀ w, ∃ cs, calls (c w).2 = calls w ++ cs ∧
             (operation_of <$> cs) `prefix_of` ops ∧
             (is_ok (c w).1 = true → operation_of <$> cs = ops).

(** [w1] is reached from [w] by making the calls [cs], with the files
    untouched. *)
Definition steps `{Collaborators} (w : world) (cs : list call) (w1 : world)
  : Prop :=
  calls w1 = calls w ++ cs ∧ files w1 = files w.

(** * Properties of the output projector *)

Section GetOutput.

Implicit Types (vids : list string) (stats : gmap string (gmap string ndarray))
  (params : gmap string pyval) (r : output_record) (out : list output_record).

Lemma bind_ok_inv {A B} (m : result A) (f : A → result B) b :
  m ≫= f = Ok b → ∃ a, m = Ok a ∧ f a = Ok b.
Proof. destruct m as [a|e]; [eauto | discriminate]. Qed.


(** The loop returns the records of the bodies, appended in order. *)
Lemma get_output_loop_ok body indices acc out :
  get_output_loop body indices acc = Ok out ↔
  ∃ rs, Forall2 (λ i r, body i = Ok r) indices rs ∧ out = acc ++ rs.
Proof.
  revert acc out. induction indices as [|i rest IH]; intros acc out; simpl.
  - split.
    + intros [= <-]. exists []. split; [constructor | by rewrite app_nil_r].
    + intros (rs & Hrs & ->). inversion Hrs; subst. by rewrite app_nil_r.
  - split.
    + intros Hb. apply bind_ok_inv in Hb as (r & Hr & Hrest).
      apply IH in Hrest as (rs & Hrs & ->).
      exists (r :: rs). split; [by constructor | by rewrite <- app_assoc].
    + intros (rs & Hrs & ->). inversion Hrs as [|? r ? rs' Hr Hrs']; subst.
      rewrite Hr. simpl. apply IH. exists rs'. split; [done|].
      by rewrite <- app_assoc.
Qed.

Lemma get_output_ok vids stats params out :
  get_output vids stats params = Ok out ↔
  Forall2 (λ i r, get_output_body vids stats params i = Ok r)
          (seq 0 (length vids)) out.
Proof.
  unfold get_output. rewrite get_output_loop_ok. split.
  - by intros (rs & Hrs & ->).
  - intros Hrs. by exists out.
Qed.

Lemma get_output_length vids stats params out :
  get_output vids stats params = Ok out → length out = length vids.
Proof.
  rewrite get_output_ok. intros Hrs.
  apply Forall2_length in Hrs. by rewrite length_seq in Hrs.
Qed.

Lemma get_output_lookup vids stats params out i r :
  get_output vids stats params = Ok out → out !! i = Some r →
  get_output_body vids stats params i = Ok r.
Proof.
  rewrite get_output_ok. intros Hrs Hr.
  destruct (Forall2_lookup_r _ _ _ _ _ Hrs Hr) as (j & Hj & Hbody).
  apply lookup_seq in Hj as [-> _]. done.
Qed.

(** A record comes out of the loop body exactly when each of the
    expressions of the body evaluates to the field it fills. *)
Lemma get_output_body_ok vids stats params i r :
  get_output_body vids stats params i = Ok r ↔
  vids !! i = Some (vid r) ∧
  optional_field stats "eps_pe"
    (site_scaled stats params "eps_pe" "mu_eps_pe" i) = Ok (eps_pe r) ∧
  optional_field stats "phi_pe" (site_at stats "phi_pe" i) = Ok (phi_pe r) ∧
  optional_field stats "m_pe" (site_at stats "m_pe" i) = Ok (p_m_pe r) ∧
  (site_mean stats "z" ≫= λ a, nd_index_row a i) = Ok (freq_z r) ∧
  site_at stats "m_sr1" i = Ok (p_m_sr1 r) ∧
  site_at stats "m_sr2" i = Ok (p_m_sr2 r) ∧
  site_scaled stats params "eps_sr1" "mu_eps_sr1" i = Ok (eps_sr1 r) ∧
  site_scaled stats params "eps_sr2" "mu_eps_sr2" i = Ok (eps_sr2 r) ∧
  site_at stats "phi_sr1" i = Ok (phi_sr1 r) ∧
  site_at stats "phi_sr2" i = Ok (phi_sr2 r).
Proof.
  unfold get_output_body, optional_field, list_getitem. split.
  - intros Hb.
    destruct (vids !! i) as [v|]; [simpl in Hb | discriminate].
    repeat (apply bind_ok_inv in Hb as (? & ? & Hb)).
    injection Hb as <-. simpl. by repeat split.
  - intros (Hv & H1 & H2 & H3 & H4 & H5 & H6 & H7 & H8 & H9 & H10).
    rewrite Hv. simpl. rewrite H1. simpl. rewrite H2. simpl. rewrite H3. simpl.
    rewrite H4. simpl. rewrite H5. simpl. rewrite H6. simpl. rewrite H7. simpl.
    rewrite H8. simpl. rewrite H9. simpl. rewrite H10. simpl.
    by destruct r.
Qed.

(** *** Totality on well-formed statistics *)

Lemma site_at_total n stats site i :
  has_mean stats site = true → shape_ok n stats site = true → i < n →
  ∃ x, site_at stats site i = Ok x ∧ item_ok site x = true.
Proof.
  unfold has_mean, shape_ok, site_at, site_mean, mean_of, getitem.
  intros Hm Hs Hi. destruct (stats !! site) as [d|]; [simpl | done].
  destruct (d !! "mean") as [[x|items]|]; [done | | done]. simpl.
  apply andb_prop in Hs as [Hlen Hitems]. apply Nat.eqb_eq in Hlen. subst n.
  destruct (lookup_lt_is_Some_2 items i Hi) as [x Hx].
  unfold list_getitem. rewrite Hx. exists x. split; [done|].
  rewrite forallb_forall in Hitems. apply Hitems.
  apply list_elem_of_In. by eapply list_elem_of_lookup_2.
Qed.

Lemma freq_z_total n stats i :
  has_mean stats "z" = true → shape_ok n stats "z" = true → i < n →
  ∃ row, (site_mean stats "z" ≫= λ a, nd_index_row a i) = Ok (NDArray row).
Proof.
  intros Hm Hs Hi. destruct (site_at_total n stats "z" i Hm Hs Hi) as (x & Hx & Hrow).
  unfold site_at, site_mean in *. destruct (getitem stats "z") as [d|]; [simpl in * | done].
  destruct (getitem d "mean") as [[y|items]|]; simpl in *; try done.
  unfold list_getitem in Hx. destruct (items !! i) as [x'|]; [|done].
  injection Hx as ->. destruct x as [y|row]; [done|]. by exists row.
Qed.

(** The product with a number that converts to a double is always there;
    the one with an integer that does not raises, unless the array has no
    element. *)
Lemma nd_mul_total x v : converts_to_double v = true → ∃ y, nd_mul x v = Ok y.
Proof. destruct v; simpl; intros Hv; try done; rewrite ?Hv; simpl; eauto. Qed.

Lemma nd_mul_overflow x z :
  fits_double z = false → nd_size x ≠ 0 →
  nd_mul x (PyInt z) = Raise OverflowError.
Proof.
  intros Hz Hx. simpl. rewrite Hz. simpl.
  by destruct (Nat.eqb_spec (nd_size x) 0).
Qed.

Lemma site_scaled_total n stats params site prior i :
  has_mean stats site = true → shape_ok n stats site = true →
  contains prior params = true → prior_ok params prior = true → i < n →
  ∃ y, site_scaled stats params site prior i = Ok y.
Proof.
  intros Hm Hs Hc Hp Hi. unfold site_scaled.
  destruct (site_at_total n stats site i Hm Hs Hi) as (x & -> & _). simpl.
  unfold contains, prior_ok, getitem in *.
  destruct (params !! prior) as [v|]; [simpl | done]. by apply nd_mul_total.
Qed.

Lemma optional_field_total stats site value :
  (contains site stats = true → ∃ x, value = Ok x) →
  ∃ c, optional_field stats site value = Ok c ∧
       (contains site stats = false → c = CInt 0).
Proof.
  unfold optional_field. destruct (contains site stats).
  - intros Hv. destruct (Hv eq_refl) as [x ->]. by exists (CArr x).
  - intros _. by exists (CInt 0).
Qed.

Ltac unpack_well_formed H :=
  unfold well_formed, present_ok, required_sites, optional_sites in H;
  cbn [forallb app] in H; rewrite !andb_true_iff in H; destruct_and!.

Lemma get_output_body_total vids stats params i :
  well_formed (length vids) stats params = true → i < length vids →
  ∃ r, get_output_body vids stats params i = Ok r.
Proof.
  intros Hwf Hi. unpack_well_formed Hwf.
  destruct (lookup_lt_is_Some_2 vids i Hi) as [v Hv].
  destruct (optional_field_total stats "eps_pe"
              (site_scaled stats params "eps_pe" "mu_eps_pe" i)) as (c1 & Hc1 & _).
  { intros Hin. rewrite Hin in *. simpl in *.
    by apply (site_scaled_total (length vids)). }
  destruct (optional_field_total stats "phi_pe" (site_at stats "phi_pe" i))
    as (c2 & Hc2 & _).
  { intros Hin. rewrite Hin in *. simpl in *.
    destruct (site_at_total (length vids) stats "phi_pe" i) as (x & Hx & _);
      [done..|]. by exists x. }
  destruct (optional_field_total stats "m_pe" (site_at stats "m_pe" i))
    as (c3 & Hc3 & _).
  { intros Hin. rewrite Hin in *. simpl in *.
    destruct (site_at_total (length vids) stats "m_pe" i) as (x & Hx & _);
      [done..|]. by exists x. }
  destruct (freq_z_total (length vids) stats i) as (row & Hz); [done..|].
  destruct (site_at_total (length vids) stats "m_sr1" i) as (x1 & Hx1 & _);
    [done..|].
  destruct (site_at_total (length vids) stats "m_sr2" i) as (x2 & Hx2 & _);
    [done..|].
  destruct (site_scaled_total (length vids) stats params "eps_sr1" "mu_eps_sr1" i)
    as (y1 & Hy1); [done..|].
  destruct (site_scaled_total (length vids) stats params "eps_sr2" "mu_eps_sr2" i)
    as (y2 & Hy2); [done..|].
  destruct (site_at_total (length vids) stats "phi_sr1" i) as (x3 & Hx3 & _);
    [done..|].
  destruct (site_at_total (length vids) stats "phi_sr2" i) as (x4 & Hx4 & _);
    [done..|].
  exists (Build_output_record v (NDArray row) c3 x1 x2 c1 y1 y2 c2 x3 x4).
  apply get_output_body_ok. simpl. by repeat split.
Qed.

Lemma get_output_total vids stats params :
  well_formed (length vids) stats params = true →
  ∃ out, get_output vids stats params = Ok out.
Proof.
  intros Hwf.
  assert (∀ indices, Forall (λ i, i < length vids) indices →
    ∃ out, Forall2 (λ i r, get_output_body vids stats params i = Ok r) indices out)
    as Hall.
  { induction indices as [|i rest IH]; intros Hlt.
    - exists []. constructor.
    - inversion Hlt as [|? ? Hi Hrest]; subst.
      destruct (get_output_body_total vids stats params i Hwf Hi) as [r Hr].
      destruct (IH Hrest) as [out Hout]. exists (r :: out). by constructor. }
  destruct (Hall (seq 0 (length vids))) as [out Hout].
  { apply Forall_forall. intros i Hi%elem_of_seq. lia. }
  exists out. by apply get_output_ok.
Qed.

(** *** What the paired-end fields hold *)










Lemma mean_of_site_mean stats site a :
  mean_of stats site = Some a → site_mean stats site = Ok a.
Proof.
  unfold mean_of, site_mean, getitem. destruct (stats !! site) as [d|]; [simpl|done].
  by intros ->.
Qed.

Lemma absent_optional_field stats site value :
  stats !! site = None → optional_field stats site value = Ok (CInt 0).
Proof. unfold optional_field, contains. by intros ->. Qed.



(** C2.  The list that [get_output] returns has the length of [vids_list];
    and it does return one when the statistics are well formed, that is
    when each ['mean'] array has one item per variant and each prior is a
    number that converts to a double. *)
Theorem get_output_length_vids vids stats params :
  (∀ out, get_output vids stats params = Ok out → length out = length vids) ∧
  (well_formed (length vids) stats params = true →
   ∃ out, get_output vids stats params = Ok out ∧ length out = length vids).
Proof.
  split; [apply get_output_length|].
  intros Hwf. destruct (get_output_total vids stats params Hwf) as [out Hout].
  exists out. split; [done|]. by eapply get_output_length.
Qed.

(** Two variants give two records. *)
Lemma get_output_length_vids_witness :
  length scenario_output = 2 ∧
  ∃ out, get_output scenario_vids paired_end_stats halved_params = Ok out ∧
         length out = 2.
Proof.
  destruct (get_output_length_vids scenario_vids scenario_stats scenario_params)
    as [Hlen _].
  split; [apply (Hlen scenario_output); vm_compute; reflexivity|].
  destruct (get_output_length_vids scenario_vids paired_end_stats halved_params)
    as [_ Htotal].
  apply Htotal. vm_compute. reflexivity.
Defined.

(** C3.  The records that [get_output] returns follow the order of
    [vids_list]: the [i]-th record has [vid] equal to [vids_list[i]]; and
    on well-formed statistics (one item per variant in each ['mean'] array,
    priors that convert to a double) it returns such a list. *)
Theorem get_output_vid_order vids stats params :
  (∀ out, get_output vids stats params = Ok out →
     vid <$> out = vids ∧
     ∀ i v, vids !! i = Some v → ∃ r, out !! i = Some r ∧ vid r = v) ∧
  (well_formed (length vids) stats params = true →
   ∃ out, get_output vids stats params = Ok out ∧ vid <$> out = vids).
Proof.
  assert (∀ out, get_output vids stats params = Ok out →
    vid <$> out = vids ∧
    ∀ i v, vids !! i = Some v → ∃ r, out !! i = Some r ∧ vid r = v) as Horder.
  { intros out Hout.
    assert (∀ i r, out !! i = Some r → vids !! i = Some (vid r)) as Hvid.
    { intros i r Hr. pose proof (get_output_lookup _ _ _ _ _ _ Hout Hr) as Hb.
      apply get_output_body_ok in Hb. by destruct_and!. }
    pose proof (get_output_length _ _ _ _ Hout) as Hlen.
    split.
    - apply list_eq. intros i. rewrite list_lookup_fmap.
      destruct (out !! i) as [r|] eqn:Hr; simpl.
      + symmetry. by apply Hvid.
      + symmetry. apply lookup_ge_None. apply lookup_ge_None in Hr. lia.
    - intros i v Hv. destruct (lookup_lt_is_Some_2 out i) as [r Hr].
      { rewrite Hlen. by eapply lookup_lt_Some. }
      exists r. split; [done|]. apply Hvid in Hr. congruence. }
  split; [exact Horder|].
  intros Hwf. destruct (get_output_total vids stats params Hwf) as [out Hout].
  exists out. split; [done|]. by apply Horder.
Qed.

(** The records of the scenario carry [sv1] and [sv2], in this order. *)
Lemma get_output_vid_order_witness :
  vid <$> scenario_output = ["sv1"; "sv2"] ∧
  (∃ r, scenario_output !! 1 = Some r ∧ vid r = "sv2") ∧
  ∃ out, get_output scenario_vids paired_end_stats halved_params = Ok out ∧
         vid <$> out = ["sv1"; "sv2"].
Proof.
  destruct (get_output_vid_order scenario_vids scenario_stats scenario_params)
    as [Horder _].
  destruct (Horder scenario_output) as [Hmap Hidx]; [vm_compute; reflexivity|].
  split; [exact Hmap|]. split; [apply Hidx; reflexivity|].
  destruct (get_output_vid_order scenario_vids paired_end_stats halved_params)
    as [_ Htotal].
  apply Htotal. vm_compute. reflexivity.
Defined.

(** C10.  For an empty [vids_list] the loop body never runs: [get_output]
    returns the empty list whatever [stats] and [params] are, also when
    both are empty. *)
Theorem get_output_empty :
  (∀ stats params, get_output [] stats params = Ok []) ∧
  get_output [] ∅ ∅ = Ok [].
Proof. split; reflexivity. Qed.

Lemma site_at_mean stats site items i x :
  mean_of stats site = Some (NDArray items) → items !! i = Some x →
  site_at stats site i = Ok x.
Proof.
  intros Hm Hx. unfold site_at. rewrite (mean_of_site_mean _ _ _ Hm). simpl.
  unfold list_getitem. by rewrite Hx.
Qed.

Lemma site_scaled_mean stats params site prior items i x y :
  mean_of stats site = Some (NDArray items) → items !! i = Some x →
  params !! prior = Some (PyFloat y) →
  site_scaled stats params site prior i = Ok (nd_scale x y).
Proof.
  intros Hm Hx Hp. unfold site_scaled. rewrite (site_at_mean _ _ _ _ _ Hm Hx).
  simpl. unfold getitem. by rewrite Hp.
Qed.

Lemma freq_z_mean stats items i row :
  mean_of stats "z" = Some (NDArray items) → items !! i = Some (NDArray row) →
  (site_mean stats "z" ≫= λ a, nd_index_row a i) = Ok (NDArray row).
Proof.
  intros Hm Hx. rewrite (mean_of_site_mean _ _ _ Hm). simpl. by rewrite Hx.
Qed.

(** C6.  The scenario of section 8, item 6: for the two variants [sv1] and
    [sv2], the hyperparameters of [m.vars.json] (k = 2, priors 1) and any
    statistics that lack [eps_pe], [phi_pe] and [m_pe] and hold a two-row
    ['mean'] array for [z], [m_sr1], [m_sr2], [eps_sr1], [eps_sr2],
    [phi_sr1] and [phi_sr2], [get_output] returns exactly two records: the
    paired-end fields are 0, [freq_z] is row [i] of the mean of [z], the
    [p_m_sr] and [phi_sr] fields are the items of the means, and the
    [eps_sr] fields are the items of the means times the prior. *)
Theorem get_output_scenario stats z1 z2 m11 m12 m21 m22 e11 e12 e21 e22
    p11 p12 p21 p22 :
  stats !! "eps_pe" = None → stats !! "phi_pe" = None → stats !! "m_pe" = None →
  mean_of stats "z" = Some (NDArray [NDArray z1; NDArray z2]) →
  mean_of stats "m_sr1" = Some (NDArray [m11; m12]) →
  mean_of stats "m_sr2" = Some (NDArray [m21; m22]) →
  mean_of stats "eps_sr1" = Some (NDArray [e11; e12]) →
  mean_of stats "eps_sr2" = Some (NDArray [e21; e22]) →
  mean_of stats "phi_sr1" = Some (NDArray [p11; p12]) →
  mean_of stats "phi_sr2" = Some (NDArray [p21; p22]) →
  get_output ["sv1"; "sv2"] stats scenario_params =
  Ok [ {| vid := "sv1"; freq_z := NDArray z1;
          p_m_pe := CInt 0; p_m_sr1 := m11; p_m_sr2 := m21;
          eps_pe := CInt 0; eps_sr1 := nd_scale e11 1; eps_sr2 := nd_scale e21 1;
          phi_pe := CInt 0; phi_sr1 := p11; phi_sr2 := p21 |};
       {| vid := "sv2"; freq_z := NDArray z2;
          p_m_pe := CInt 0; p_m_sr1 := m12; p_m_sr2 := m22;
          eps_pe := CInt 0; eps_sr1 := nd_scale e12 1; eps_sr2 := nd_scale e22 1;
          phi_pe := CInt 0; phi_sr1 := p12; phi_sr2 := p22 |} ].
Proof.
  intros Heps Hphi Hm Hz Hm1 Hm2 He1 He2 Hp1 Hp2.
  apply get_output_ok. simpl.
  repeat constructor; apply get_output_body_ok; simpl;
    rewrite !absent_optional_field by done;
    repeat split; try done;
    first [ by eapply freq_z_mean
          | by eapply site_at_mean
          | by eapply site_scaled_mean ].
Qed.

(** The scenario on concrete statistics. *)
Lemma get_output_scenario_witness :
  get_output ["sv1"; "sv2"] scenario_stats scenario_params
  = Ok [ {| vid := "sv1"; freq_z := NDArray [Scalar 0.75; Scalar 0.25];
            p_m_pe := CInt 0; p_m_sr1 := Scalar 0.5; p_m_sr2 := Scalar 1;
            eps_pe := CInt 0; eps_sr1 := nd_scale (Scalar 0.0625) 1;
            eps_sr2 := nd_scale (Scalar 0.25) 1;
            phi_pe := CInt 0; phi_sr1 := Scalar 1.5; phi_sr2 := Scalar 0.5 |};
         {| vid := "sv2"; freq_z := NDArray [Scalar 0.125; Scalar 0.875];
            p_m_pe := CInt 0; p_m_sr1 := Scalar 0.25; p_m_sr2 := Scalar 0;
            eps_pe := CInt 0; eps_sr1 := nd_scale (Scalar 0.5) 1;
            eps_sr2 := nd_scale (Scalar 2) 1;
            phi_pe := CInt 0; phi_sr1 := Scalar 3; phi_sr2 := Scalar 4 |} ]%float.
Proof.
  apply (get_output_scenario scenario_stats); vm_compute; reflexivity.
Defined.

(** *** Required sites *)

Lemma site_mean_ok_inv stats site a :
  site_mean stats site = Ok a → is_Some (stats !! site).
Proof.
  unfold site_mean, getitem. destruct (stats !! site); [eauto | discriminate].
Qed.

Lemma site_at_ok_inv stats site i x :
  site_at stats site i = Ok x → is_Some (stats !! site).
Proof.
  unfold site_at. intros (a & Ha & _)%bind_ok_inv. by eapply site_mean_ok_inv.
Qed.

Lemma site_scaled_ok_inv stats params site prior i y :
  site_scaled stats params site prior i = Ok y →
  is_Some (stats !! site) ∧ is_Some (params !! prior).
Proof.
  unfold site_scaled. intros (x & Hx & (p & Hp & _)%bind_ok_inv)%bind_ok_inv.
  split; [by eapply site_at_ok_inv|].
  unfold getitem in Hp. destruct (params !! prior); [eauto | discriminate].
Qed.

(** A record is only built when every required site and both split-read
    priors are there. *)
Lemma get_output_body_requires vids stats params i r :
  get_output_body vids stats params i = Ok r →
  Forall (λ site, is_Some (stats !! site)) required_sites ∧
  is_Some (params !! "mu_eps_sr1") ∧ is_Some (params !! "mu_eps_sr2").
Proof.
  intros Hb. apply get_output_body_ok in Hb.
  destruct Hb as (_ & _ & _ & _ & Hz & H5 & H6 & H7 & H8 & H9 & H10).
  apply bind_ok_inv in Hz as (a & Ha%site_mean_ok_inv & _).
  apply site_at_ok_inv in H5, H6, H9, H10.
  apply site_scaled_ok_inv in H7 as [H7 H7'], H8 as [H8 H8'].
  unfold required_sites. by repeat constructor.
Qed.

Lemma key_or_ok_bind {A B} (m : result A) (f : A → result B) :
  key_or_ok m → (∀ a, m = Ok a → key_or_ok (f a)) → key_or_ok (m ≫= f).
Proof. destruct m as [a|e]; simpl; [intros _ Hf; by apply Hf | done]. Qed.

Lemma key_or_ok_getitem {V} (d : gmap string V) k : key_or_ok (getitem d k).
Proof. unfold getitem. by destruct (d !! k). Qed.

Lemma key_or_ok_site_at n stats site i :
  shape_ok n stats site = true → i < n → key_or_ok (site_at stats site i).
Proof.
  unfold shape_ok, mean_of, site_at, site_mean, getitem. intros Hs Hi.
  destruct (stats !! site) as [d|]; [simpl | done].
  destruct (d !! "mean") as [[x|items]|]; [done | | done]. simpl.
  apply andb_prop in Hs as [Hlen%Nat.eqb_eq _]. subst n.
  unfold list_getitem. by destruct (lookup_lt_is_Some_2 items i Hi) as [x ->].
Qed.

Lemma key_or_ok_freq_z n stats i :
  shape_ok n stats "z" = true → i < n →
  key_or_ok (site_mean stats "z" ≫= λ a, nd_index_row a i).
Proof.
  unfold shape_ok, mean_of, site_mean, getitem. intros Hs Hi.
  destruct (stats !! "z") as [d|]; [simpl | done].
  destruct (d !! "mean") as [[x|items]|]; [done | | done]. simpl.
  apply andb_prop in Hs as [Hlen%Nat.eqb_eq Hitems]. subst n.
  destruct (lookup_lt_is_Some_2 items i Hi) as [x Hx]. rewrite Hx.
  rewrite forallb_forall in Hitems.
  assert (item_ok "z" x = true) as Hrow.
  { apply Hitems, list_elem_of_In. by eapply list_elem_of_lookup_2. }
  by destruct x.
Qed.

Lemma key_or_ok_site_scaled n stats params site prior i :
  shape_ok n stats site = true → prior_ok params prior = true → i < n →
  key_or_ok (site_scaled stats params site prior i).
Proof.
  intros Hs Hp Hi. unfold site_scaled.
  apply key_or_ok_bind; [by eapply key_or_ok_site_at|]. intros x _.
  apply key_or_ok_bind; [apply key_or_ok_getitem|]. intros v Hv.
  unfold getitem, prior_ok in *. destruct (params !! prior) as [v'|]; [|done].
  injection Hv as ->. destruct v; simpl in *; try done. by rewrite Hp.
Qed.

Lemma key_or_ok_optional_field stats site value :
  key_or_ok value → key_or_ok (optional_field stats site value).
Proof.
  unfold optional_field. destruct (contains site stats); [|done].
  by destruct value.
Qed.

Ltac unpack_present_ok H :=
  unfold present_ok, required_sites, optional_sites in H;
  cbn [forallb app] in H; rewrite !andb_true_iff in H; destruct_and!.

(** When the entries that are present are as the data model has them, the
    body of the loop can only raise a key-lookup error. *)
Lemma key_or_ok_get_output_body vids stats params i :
  present_ok (length vids) stats params = true → i < length vids →
  key_or_ok (get_output_body vids stats params i).
Proof.
  intros Hok Hi. unpack_present_ok Hok.
  destruct (lookup_lt_is_Some_2 vids i Hi) as [v Hv].
  unfold get_output_body, list_getitem. rewrite Hv. simpl.
  apply key_or_ok_bind.
  { apply (key_or_ok_optional_field stats "eps_pe").
    by eapply key_or_ok_site_scaled. }
  intros c1 _. apply key_or_ok_bind.
  { apply (key_or_ok_optional_field stats "phi_pe").
    by eapply key_or_ok_site_at. }
  intros c2 _. apply key_or_ok_bind.
  { apply (key_or_ok_optional_field stats "m_pe").
    by eapply key_or_ok_site_at. }
  intros c3 _. apply key_or_ok_bind; [by eapply key_or_ok_freq_z|].
  intros fz _. apply key_or_ok_bind; [by eapply key_or_ok_site_at|].
  intros x1 _. apply key_or_ok_bind; [by eapply key_or_ok_site_at|].
  intros x2 _. apply key_or_ok_bind; [by eapply key_or_ok_site_scaled|].
  intros y1 _. apply key_or_ok_bind; [by eapply key_or_ok_site_scaled|].
  intros y2 _. apply key_or_ok_bind; [by eapply key_or_ok_site_at|].
  intros x3 _. apply key_or_ok_bind; [by eapply key_or_ok_site_at|].
  intros x4 _. done.
Qed.

(** What the first iteration raises is what [get_output] raises. *)
Lemma get_output_first_raise vids stats params e :
  get_output_body vids stats params 0 = Raise e → vids ≠ [] →
  get_output vids stats params = Raise e.
Proof.
  intros Hb Hne. unfold get_output. destruct vids as [|v vids]; [done|].
  simpl. by rewrite Hb.
Qed.

(** C9, as amended.  Only the paired-end sites are optional.  For a
    non-empty [vids_list], when one of [z], [m_sr1], [m_sr2], [eps_sr1],
    [eps_sr2], [phi_sr1], [phi_sr2] is not a key of [stats], or [params]
    lacks [mu_eps_sr1] or [mu_eps_sr2], [get_output] substitutes no default
    and returns no list: it raises.  What it raises is a key-lookup error
    when the entries that are present are as the data model has them (each
    ['mean'] array has one item per variant, rows for [z], and each prior is
    a number that converts to a double).  Without this it need not be one:
    an entry that is read before the missing one raises its own exception,
    as the vector for [z] does below. *)
Theorem get_output_required_sites vids stats params :
  vids ≠ [] →
  (∃ site, site ∈ required_sites ∧ stats !! site = None)
  ∨ params !! "mu_eps_sr1" = None ∨ params !! "mu_eps_sr2" = None →
  (∃ e, get_output vids stats params = Raise e) ∧
  (present_ok (length vids) stats params = true →
   ∃ k, get_output vids stats params = Raise (KeyError k)).
Proof.
  intros Hne Hmissing.
  destruct (get_output_body vids stats params 0) as [r|e] eqn:Hb.
  { apply get_output_body_requires in Hb as (Hsites & Hp1 & Hp2).
    exfalso. destruct Hmissing as [(site & Hin & Hnone)|[Hnone|Hnone]].
    - rewrite Forall_forall in Hsites. apply Hsites in Hin.
      rewrite Hnone in Hin. by destruct Hin.
    - rewrite Hnone in Hp1. by destruct Hp1.
    - rewrite Hnone in Hp2. by destruct Hp2. }
  pose proof (get_output_first_raise vids stats params e Hb Hne) as Hout.
  split; [by exists e|].
  intros Hok.
  assert (0 < length vids) as Hlen by (destruct vids; [done | simpl; lia]).
  pose proof (key_or_ok_get_output_body vids stats params 0 Hok Hlen) as Hkey.
  rewrite Hb in Hkey. simpl in Hkey. destruct e; try discriminate Hkey.
  by eexists.
Qed.

(** The scenario without [m_sr1]: the lookup of [m_sr1] fails. *)
Lemma get_output_required_sites_witness :
  (∃ e, get_output scenario_vids (delete "m_sr1" scenario_stats) scenario_params
        = Raise e) ∧
  ∃ k, get_output scenario_vids (delete "m_sr1" scenario_stats) scenario_params
       = Raise (KeyError k).
Proof.
  destruct (get_output_required_sites scenario_vids
              (delete "m_sr1" scenario_stats) scenario_params) as [Hraise Hkey].
  - discriminate.
  - left. exists "m_sr1". split; [|vm_compute; reflexivity].
    apply elem_of_cons. right. apply elem_of_cons. by left.
  - split; [exact Hraise|]. apply Hkey. vm_compute. reflexivity.
Defined.

(** C9 as stated fails: with one variant, a mean of [z] that is a vector
    (so that [[i, :]] has one index too many) and no [m_sr1], the call
    raises an index error before it comes to look [m_sr1] up. *)
Lemma get_output_missing_site_index_error :
  ["sv1"] ≠ @nil string ∧
  flat_z_stats !! "m_sr1" = None ∧
  get_output ["sv1"] flat_z_stats ∅ = Raise IndexError ∧
  ¬ ∃ k, get_output ["sv1"] flat_z_stats ∅ = Raise (KeyError k).
Proof.
  assert (get_output ["sv1"] flat_z_stats ∅ = Raise IndexError) as Hrun
    by (vm_compute; reflexivity).
  split; [discriminate|]. split; [vm_compute; reflexivity|].
  split; [exact Hrun|]. intros [k Hk]. rewrite Hrun in Hk. discriminate Hk.
Qed.

End GetOutput.

(** * Properties of the loaders and of the driver *)

Section DriverProperties.
Context `{Collaborators}.

Implicit Types (w : world) (args : gmap string pyval).

(** C4.  When [<base_path>.vars.json] does not exist, [load_model] returns
    [None] without raising, and hands [logging] one record of level WARNING
    that names the file; nothing else changes.  When it is a file,
    [load_model] returns what [json.load] makes of its text. *)
Theorem load_model_result base_path w :
  (files w !! (base_path +:+ ".vars.json") = None →
   ∃ w', load_model base_path w = (Ok (JScalar PyNone), w') ∧
         log w' = log w ++ [(WARNING, "Could not locate model file " +:+
                                      (base_path +:+ ".vars.json"))] ∧
         files w' = files w ∧ libs w' = libs w ∧ calls w' = calls w) ∧
  (∀ content, files w !! (base_path +:+ ".vars.json") = Some (File content) →
   load_model base_path w = (json_load content, w)).
Proof.
  unfold load_model, bind, os_path_exists, contains, open_read, lift.
  cbv zeta. split.
  - intros ->. simpl. eexists. by repeat split.
  - intros content Hc. rewrite Hc. cbn. by rewrite Hc.
Qed.

End DriverProperties.

(** A model directory without and with [models/m.vars.json]. *)
Lemma load_model_result_witness :
  (∃ w', load_model "models/m" (used_world ∅) = (Ok (JScalar PyNone), w') ∧
         log w' = [(WARNING, "earlier");
                   (WARNING, "Could not locate model file models/m.vars.json")]) ∧
  load_model "models/m" (used_world model_files)
  = (Ok (JObject scenario_params), used_world model_files).
Proof.
  destruct (load_model_result "models/m" (used_world ∅)) as [Hnone _].
  destruct (load_model_result "models/m" (used_world model_files)) as [_ Hfile].
  split.
  - destruct Hnone as (w' & Hrun & Hlog & _); [reflexivity|].
    exists w'. split; [exact Hrun | exact Hlog].
  - apply (Hfile "{}"). reflexivity.
Defined.

Section RunProperties.
Context `{Collaborators}.

Implicit Types (w : world) (args : gmap string pyval).

Lemma bind_step {A B} (c : M A) (k : A → M B) w a w' X :
  c w = (Ok a, w') → k a w' = X → bind c k w = X.
Proof. intros Hc Hk. unfold bind. by rewrite Hc. Qed.

(** C5.  When the arguments resolve to a base path (the seed is there and
    accepted by the three generators, the type tag names a member of
    [SVTypes], the directory and name join to [base_path]) and
    [<base_path>.vars.json] does not exist, [run] raises the runtime error
    [Model at not found: <base_path>].  Up to there it has cleared the
    registry and seeded the generators, and [load_model] has logged its
    warning: no inference call and no call of [write_variant_output] was
    made, and the files are as they were. *)
Theorem run_missing_model args default_dtype w seed g1 g2 g3 name sv dir file
    base_path :
  args !! "random_seed" = Some seed →
  np_seeded seed = Ok g1 → torch_seeded seed = Ok g2 → pyro_seeded seed = Ok g3 →
  args !! "svtype" = Some name → SVTypes_getitem name = Ok sv →
  args !! "model_dir" = Some dir → args !! "model_name" = Some file →
  os_path_join dir file = Ok base_path →
  files w !! (base_path +:+ ".vars.json") = None →
  ∃ w', run args default_dtype w
        = (Raise (RuntimeError ("Model at not found: " +:+ base_path)), w') ∧
        files w' = files w ∧
        calls w' = calls w ++ [CallClearParamStore; CallSeedNumpy seed;
                               CallSeedTorch seed; CallSeedPyro seed] ∧
        Forall (λ c, is_inference_or_output c = false)
               (drop (length (calls w)) (calls w')) ∧
        log w' = log w ++ [(WARNING, "Could not locate model file " +:+
                                     (base_path +:+ ".vars.json"))].
Proof.
  intros Hseed Hg1 Hg2 Hg3 Hname Hsv Hdir Hfile Hjoin Hnone.
  assert (getitem args "random_seed" = Ok seed) as Hseed'
    by (unfold getitem; by rewrite Hseed).
  assert (getitem args "svtype" = Ok name) as Hname'
    by (unfold getitem; by rewrite Hname).
  assert (getitem args "model_dir" = Ok dir) as Hdir'
    by (unfold getitem; by rewrite Hdir).
  assert (getitem args "model_name" = Ok file) as Hfile'
    by (unfold getitem; by rewrite Hfile).
  eexists. split.
  - unfold run.
    do 4 (eapply bind_step; [reflexivity|]).
    eapply bind_step; [by rewrite Hseed'|].
    eapply bind_step;
      [unfold np_random_seed, bind, lift; cbn; by rewrite Hg1|].
    eapply bind_step; [by rewrite Hseed'|].
    eapply bind_step;
      [unfold torch_random_manual_seed, bind, lift; cbn; by rewrite Hg2|].
    eapply bind_step; [by rewrite Hseed'|].
    eapply bind_step;
      [unfold pyro_set_rng_seed, bind, lift; cbn; by rewrite Hg3|].
    eapply bind_step; [by rewrite Hname'|].
    eapply bind_step; [by rewrite Hsv|].
    eapply bind_step; [by rewrite Hdir'|].
    eapply bind_step; [by rewrite Hfile'|].
    eapply bind_step; [by rewrite Hjoin|].
    eapply bind_step.
    { unfold load_model, bind, os_path_exists, contains, lift. cbn.
      rewrite Hnone. reflexivity. }
    reflexivity.
  - cbn. split; [done|]. rewrite <- !app_assoc. cbn. split; [done|].
    split; [|done]. rewrite drop_app_length. by repeat constructor.
Qed.

(** *** Determinism *)

Lemma related_bind {A B} m m' m'' (c : M A) (k : A → M B) :
  related m c m' → (∀ a, related m' (k a) m'') → related m (bind c k) m''.
Proof.
  intros Hc Hk w1 w2 Hw. unfold bind.
  destruct (Hc w1 w2 Hw) as (Hr & Hf & Hpost).
  destruct (c w1) as [[a1|e1] w1'], (c w2) as [[a2|e2] w2'];
    simpl in *; simplify_eq.
  - apply Hk. by apply Hpost.
  - done.
Qed.

Lemma agree_every_component w1 w2 :
  agree every_component w1 w2 → files w1 = files w2 ∧ libs w1 = libs w2.
Proof.
  unfold agree. simpl. intros (Hf & H1 & H2 & H3 & H4 & H5 & H6).
  split; [done|]. destruct (libs w1), (libs w2). simpl in *.
  by rewrite H1, H2, H3, H4, H5, H6.
Qed.

Lemma agree_refl_libs m w1 w2 :
  files w1 = files w2 → libs w1 = libs w2 → agree m w1 w2.
Proof. intros Hf Hl. unfold agree. rewrite Hl. by repeat split. Qed.

(** Computations that neither read nor write the runtime. *)
Lemma related_lift {A} m (r : result A) : related m (lift r) m.
Proof. intros w1 w2 Hw. unfold lift. simpl. by destruct Hw. Qed.

Lemma related_ret {A} m (a : A) : related m (ret a) m.
Proof. intros w1 w2 Hw. unfold ret. simpl. by destruct Hw. Qed.

Lemma related_raise {A} m m' e : related m (raise (A := A) e) m'.
Proof. intros w1 w2 Hw. unfold raise. simpl. by destruct Hw. Qed.

Lemma related_record_call m c : related m (record_call c) m.
Proof. intros w1 w2 Hw. unfold record_call. simpl. by destruct Hw. Qed.

Lemma related_logging_basicConfig m lv : related m (logging_basicConfig lv) m.
Proof. intros w1 w2 Hw. unfold logging_basicConfig. simpl. by destruct Hw. Qed.

Lemma related_logging_warning m msg : related m (logging_warning msg) m.
Proof. intros w1 w2 Hw. unfold logging_warning. simpl. by destruct Hw. Qed.

Lemma related_os_path_exists m path : related m (os_path_exists path) m.
Proof.
  intros w1 w2 Hw. unfold os_path_exists. simpl. destruct Hw as [Hf ?].
  by rewrite Hf.
Qed.

Lemma related_open_read m path : related m (open_read path) m.
Proof.
  intros w1 w2 Hw. unfold open_read. destruct Hw as [Hf ?]. rewrite Hf.
  by destruct (files w2 !! path) as [[content|]|].
Qed.

Lemma related_get_files m : related m get_files m.
Proof.
  intros w1 w2 Hw. unfold get_files. simpl. destruct Hw as [Hf ?].
  by rewrite Hf.
Qed.

Lemma related_set_files m fs : related m (set_files fs) m.
Proof. intros w1 w2 Hw. unfold set_files. simpl. by destruct Hw. Qed.

(** Computations that read the runtime ask for agreement on all of it. *)
Lemma related_get_libs : related every_component get_libs every_component.
Proof.
  intros w1 w2 Hw. unfold get_libs. simpl.
  destruct (agree_every_component _ _ Hw) as [Hf Hl]. by rewrite Hl.
Qed.

Lemma related_call_libs {A}
    (f : runtime payload device generator →
         result A * runtime payload device generator) :
  related every_component (call_libs f) every_component.
Proof.
  intros w1 w2 Hw. unfold call_libs.
  destruct (agree_every_component _ _ Hw) as [Hf Hl]. rewrite Hl.
  destruct (f (libs w2)) as [r rt]. simpl.
  split; [done|]. split; [done|]. intros _. by apply agree_refl_libs.
Qed.

(** Computations that overwrite one component of the runtime leave the
    two states in agreement on it. *)
Lemma related_enable_validation m b :
  related m (pyro_enable_validation b)
    {| on_registry := on_registry m; on_np_rng := on_np_rng m;
       on_torch_rng := on_torch_rng m; on_pyro_rng := on_pyro_rng m;
       on_validation := true; on_dist_validation := on_dist_validation m |}.
Proof.
  intros w1 w2 (Hf & H1 & H2 & H3 & H4 & H5 & H6).
  unfold pyro_enable_validation, set_libs, agree. simpl. by repeat split.
Qed.

Lemma related_distributions_enable_validation m b :
  related m (pyro_distributions_enable_validation b)
    {| on_registry := on_registry m; on_np_rng := on_np_rng m;
       on_torch_rng := on_torch_rng m; on_pyro_rng := on_pyro_rng m;
       on_validation := on_validation m; on_dist_validation := true |}.
Proof.
  intros w1 w2 (Hf & H1 & H2 & H3 & H4 & H5 & H6).
  unfold pyro_distributions_enable_validation, set_libs, agree. simpl.
  by repeat split.
Qed.

Lemma related_set_registry m reg :
  related m (set_registry reg)
    {| on_registry := true; on_np_rng := on_np_rng m;
       on_torch_rng := on_torch_rng m; on_pyro_rng := on_pyro_rng m;
       on_validation := on_validation m;
       on_dist_validation := on_dist_validation m |}.
Proof.
  intros w1 w2 (Hf & H1 & H2 & H3 & H4 & H5 & H6).
  unfold set_registry, set_libs, agree. simpl. by repeat split.
Qed.

Lemma related_clear_param_store m :
  related m pyro_clear_param_store
    {| on_registry := true; on_np_rng := on_np_rng m;
       on_torch_rng := on_torch_rng m; on_pyro_rng := on_pyro_rng m;
       on_validation := on_validation m;
       on_dist_validation := on_dist_validation m |}.
Proof.
  unfold pyro_clear_param_store.
  eapply related_bind; [apply related_record_call|].
  intros _. apply related_set_registry.
Qed.

Lemma related_np_random_seed m seed :
  related m (np_random_seed seed)
    {| on_registry := on_registry m; on_np_rng := true;
       on_torch_rng := on_torch_rng m; on_pyro_rng := on_pyro_rng m;
       on_validation := on_validation m;
       on_dist_validation := on_dist_validation m |}.
Proof.
  unfold np_random_seed.
  eapply related_bind; [apply related_record_call|]. intros _.
  eapply related_bind; [apply related_lift|]. intros g.
  intros w1 w2 (Hf & H1 & H2 & H3 & H4 & H5 & H6).
  unfold set_libs, agree. simpl. by repeat split.
Qed.

Lemma related_torch_random_manual_seed m seed :
  related m (torch_random_manual_seed seed)
    {| on_registry := on_registry m; on_np_rng := on_np_rng m;
       on_torch_rng := true; on_pyro_rng := on_pyro_rng m;
       on_validation := on_validation m;
       on_dist_validation := on_dist_validation m |}.
Proof.
  unfold torch_random_manual_seed.
  eapply related_bind; [apply related_record_call|]. intros _.
  eapply related_bind; [apply related_lift|]. intros g.
  intros w1 w2 (Hf & H1 & H2 & H3 & H4 & H5 & H6).
  unfold set_libs, agree. simpl. by repeat split.
Qed.

Lemma related_pyro_set_rng_seed m seed :
  related m (pyro_set_rng_seed seed)
    {| on_registry := on_registry m; on_np_rng := on_np_rng m;
       on_torch_rng := on_torch_rng m; on_pyro_rng := true;
       on_validation := on_validation m;
       on_dist_validation := on_dist_validation m |}.
Proof.
  unfold pyro_set_rng_seed.
  eapply related_bind; [apply related_record_call|]. intros _.
  eapply related_bind; [apply related_lift|]. intros g.
  intros w1 w2 (Hf & H1 & H2 & H3 & H4 & H5 & H6).
  unfold set_libs, agree. simpl. by repeat split.
Qed.

Ltac related_step :=
  first
    [ apply related_lift | apply related_ret | apply related_raise
    | apply related_record_call | apply related_logging_basicConfig
    | apply related_logging_warning | apply related_os_path_exists
    | apply related_open_read | apply related_get_files
    | apply related_set_files | apply related_get_libs
    | apply related_call_libs | apply related_enable_validation
    | apply related_distributions_enable_validation
    | apply related_set_registry | apply related_clear_param_store
    | apply related_np_random_seed | apply related_torch_random_manual_seed
    | apply related_pyro_set_rng_seed ].

Ltac related_go :=
  lazymatch goal with
  | |- related _ (bind _ _) _ =>
      eapply related_bind; [related_go | intros ?; related_go]
  | |- related _ (if ?b then _ else _) _ => destruct b; related_go
  | |- related _ (let _ := _ in _) _ => cbv zeta; related_go
  | |- _ => related_step
  end.

Lemma related_load_model m base_path : related m (load_model base_path) m.
Proof. unfold load_model. related_go. Qed.

Lemma related_load_param_store base_path device_name :
  related every_component (load_param_store base_path device_name)
    every_component.
Proof. unfold load_param_store, param_store_load. related_go. Qed.

Lemma related_new_model cfg :
  related every_component (SVGenotyperPyroModel cfg) every_component.
Proof. unfold SVGenotyperPyroModel. related_go. Qed.

Lemma related_io_load_list m path : related m (io_load_list path) m.
Proof. unfold io_load_list. related_go. Qed.

Lemma related_io_load_tensors m base_path sv dt device_name :
  related m (io_load_tensors base_path sv dt device_name) m.
Proof. unfold io_load_tensors. related_go. Qed.

Lemma related_run_predictive mdl d n_samples n_iter :
  related every_component (model_run_predictive mdl d n_samples n_iter)
    every_component.
Proof. unfold model_run_predictive. related_go. Qed.

Lemma related_run_discrete mdl d sv n_states log_freq n_samples :
  related every_component
    (model_run_discrete mdl d sv n_states log_freq n_samples) every_component.
Proof. unfold model_run_discrete. related_go. Qed.

Lemma related_write_variant_output m path output :
  related m (io_write_variant_output path output) m.
Proof. unfold io_write_variant_output. related_go. Qed.

Ltac solve_related_run :=
  lazymatch goal with
  | |- related _ (bind _ _) _ =>
      eapply related_bind; [solve_related_run | intros ?; solve_related_run]
  | |- related _ (if ?b then _ else _) _ => destruct b; solve_related_run
  | |- related _ (let _ := _ in _) _ => cbv zeta; solve_related_run
  | |- _ =>
      first
        [ apply related_load_model | apply related_load_param_store
        | apply related_new_model | apply related_io_load_list
        | apply related_io_load_tensors | apply related_run_predictive
        | apply related_run_discrete | apply related_write_variant_output
        | related_step ]
  end.

(** Started in two states with the same files, [run] behaves alike: the
    components of the runtime are overwritten before they are read. *)
Lemma related_run args default_dtype :
  related no_component (run args default_dtype) every_component.
Proof. unfold run. solve_related_run. Qed.

(** C8.  [run] is deterministic in its arguments and the files: two
    invocations on the same arguments (so the same seed) and the same files
    return the same records, or raise the same exception, and leave the
    same files, whatever the registry, the generators, the validation
    switches and the log were before.  The registry is cleared and the
    three generators are seeded from [random_seed] before the model is
    built and inference runs; the collaborators are functions of their
    arguments, the runtime and the files. *)
Theorem run_deterministic args default_dtype w1 w2 :
  files w1 = files w2 →
  (run args default_dtype w1).1 = (run args default_dtype w2).1 ∧
  files (run args default_dtype w1).2 = files (run args default_dtype w2).2.
Proof.
  intros Hfiles.
  destruct (related_run args default_dtype w1 w2) as (Hr & Hf & _); [|done].
  unfold agree, no_component. simpl. by repeat split.
Qed.

End RunProperties.

(** *** The registry on the way to inference *)

Section Phases.
Context `{Collaborators}.
Variable T0 : list call.
Variable F0 : gmap string node.

Implicit Types (w : world) (s : phase).

Lemma triple_bind {A B} P (c : M A) Q (k : A → M B) Q' E :
  triple P c Q E → (∀ a, triple (Q a) (k a) Q' E) → triple P (bind c k) Q' E.
Proof.
  intros Hc Hk w Hw. unfold bind. specialize (Hc w Hw).
  destruct (c w) as [[a|e] w']; [by apply Hk | done].
Qed.

Lemma count_clears_snoc (t : list call) c :
  count_clears (t ++ [c]) = count_clears t + (if is_clear c then 1 else 0).
Proof.
  unfold count_clears. rewrite filter_app, length_app. f_equal.
  rewrite filter_cons, filter_nil. by destruct (is_clear c).
Qed.

(** A phase only looks at the trace, the files and the registry. *)
Lemma stage_ext s w w' :
  calls w' = calls w → files w' = files w →
  registry (libs w') = registry (libs w) →
  stage T0 F0 s w → stage T0 F0 s w'.
Proof.
  intros Hc Hf Hr. destruct s; unfold stage, quiet_trace;
    rewrite ?Hc, ?Hf, ?Hr; done.
Qed.

Lemma stage_good s w : stage T0 F0 s w → good T0 F0 w.
Proof. intros Hs. by exists s. Qed.

Lemma triple_frame {A} s (c : M A) :
  (∀ w, calls (c w).2 = calls w ∧ files (c w).2 = files w ∧
        registry (libs (c w).2) = registry (libs w)) →
  triple (stage T0 F0 s) c (λ _, stage T0 F0 s) (good T0 F0).
Proof.
  intros Hc w Hw. destruct (Hc w) as (H1 & H2 & H3).
  destruct (c w) as [[a|e] w']; simpl in *.
  - by eapply stage_ext.
  - eapply stage_good. by eapply stage_ext.
Qed.

Lemma triple_lift {A} s (r : result A) :
  triple (stage T0 F0 s) (lift r) (λ _, stage T0 F0 s) (good T0 F0).
Proof. by apply triple_frame. Qed.

Lemma triple_ret {A} s (a : A) :
  triple (stage T0 F0 s) (ret a) (λ _, stage T0 F0 s) (good T0 F0).
Proof. by apply triple_frame. Qed.

Lemma triple_raise {A} s e Q :
  triple (stage T0 F0 s) (raise (A := A) e) Q (good T0 F0).
Proof. intros w Hw. unfold raise. by eapply stage_good. Qed.

Lemma triple_logging_basicConfig s lv :
  triple (stage T0 F0 s) (logging_basicConfig lv) (λ _, stage T0 F0 s)
    (good T0 F0).
Proof. by apply triple_frame. Qed.

Lemma triple_logging_warning s msg :
  triple (stage T0 F0 s) (logging_warning msg) (λ _, stage T0 F0 s) (good T0 F0).
Proof. by apply triple_frame. Qed.

Lemma triple_os_path_exists s path :
  triple (stage T0 F0 s) (os_path_exists path) (λ _, stage T0 F0 s) (good T0 F0).
Proof. by apply triple_frame. Qed.

Lemma triple_open_read s path :
  triple (stage T0 F0 s) (open_read path) (λ _, stage T0 F0 s) (good T0 F0).
Proof.
  apply triple_frame. intros w. unfold open_read.
  by destruct (files w !! path) as [[content|]|].
Qed.

Lemma triple_get_files s :
  triple (stage T0 F0 s) get_files (λ _, stage T0 F0 s) (good T0 F0).
Proof. by apply triple_frame. Qed.

Lemma triple_get_libs s :
  triple (stage T0 F0 s) get_libs (λ _, stage T0 F0 s) (good T0 F0).
Proof. by apply triple_frame. Qed.

Lemma triple_enable_validation s b :
  triple (stage T0 F0 s) (pyro_enable_validation b) (λ _, stage T0 F0 s)
    (good T0 F0).
Proof. by apply triple_frame. Qed.

Lemma triple_distributions_enable_validation s b :
  triple (stage T0 F0 s) (pyro_distributions_enable_validation b)
    (λ _, stage T0 F0 s) (good T0 F0).
Proof. by apply triple_frame. Qed.

(** Recording a call that is neither a clear nor [run_predictive]. *)
Lemma triple_record_call s c :
  is_clear c = false → is_predictive c = false →
  triple (stage T0 F0 s) (record_call c) (λ _, stage T0 F0 s) (good T0 F0).
Proof.
  intros Hclear Hpred w Hw. unfold record_call.
  destruct s; unfold stage, quiet_trace in *; simpl.
  - destruct Hw as (Hf & t & Hc & Hn & Hp). split; [done|].
    exists (t ++ [c]). rewrite Hc, <- app_assoc, count_clears_snoc, Hclear.
    split; [done|]. split; [lia|]. apply Forall_app. by repeat constructor.
  - destruct Hw as (Hf & (t & Hc & Hn & Hp) & Hreg). split; [done|].
    split; [|done].
    exists (t ++ [c]). rewrite Hc, <- app_assoc, count_clears_snoc, Hclear.
    split; [done|]. split; [lia|]. apply Forall_app. by repeat constructor.
  - destruct Hw as (t & reg & t' & Hc & Hn & Hp & Hp' & Hreg).
    exists t, reg, (t' ++ [c]). rewrite Hc, <- !app_assoc. simpl.
    repeat split; try done. apply Forall_app. by repeat constructor.
Qed.

Lemma triple_clear_param_store n :
  triple (stage T0 F0 (Quiet n)) pyro_clear_param_store
    (λ _, stage T0 F0 (Quiet (S n))) (good T0 F0).
Proof.
  intros w (Hf & t & Hc & Hn & Hp).
  unfold pyro_clear_param_store, bind, record_call, set_registry, set_libs.
  simpl. split; [done|]. exists (t ++ [CallClearParamStore]).
  rewrite Hc, <- app_assoc, count_clears_snoc. simpl.
  split; [done|]. split; [lia|]. apply Forall_app. by repeat constructor.
Qed.

(** Library calls that update the runtime, outside the [Loaded] phase. *)
Lemma triple_call_libs_quiet {A} n
    (f : runtime payload device generator →
         result A * runtime payload device generator) :
  triple (stage T0 F0 (Quiet n)) (call_libs f) (λ _, stage T0 F0 (Quiet n))
    (good T0 F0).
Proof.
  intros w Hw. unfold call_libs. destruct (f (libs w)) as [[a|e] rt]; simpl.
  - exact Hw.
  - by exists (Quiet n).
Qed.

Lemma triple_call_libs_entered {A}
    (f : runtime payload device generator →
         result A * runtime payload device generator) :
  triple (stage T0 F0 Entered) (call_libs f) (λ _, stage T0 F0 Entered)
    (good T0 F0).
Proof.
  intros w Hw. unfold call_libs. destruct (f (libs w)) as [[a|e] rt]; simpl.
  - exact Hw.
  - by exists Entered.
Qed.

Lemma triple_set_libs_quiet n f :
  triple (stage T0 F0 (Quiet n)) (set_libs f) (λ _, stage T0 F0 (Quiet n))
    (good T0 F0).
Proof. intros w Hw. exact Hw. Qed.

Lemma triple_set_files_entered fs :
  triple (stage T0 F0 Entered) (set_files fs) (λ _, stage T0 F0 Entered)
    (good T0 F0).
Proof. intros w Hw. exact Hw. Qed.

Ltac triple_step :=
  first
    [ apply triple_lift | apply triple_ret | apply triple_raise
    | apply triple_logging_basicConfig | apply triple_logging_warning
    | apply triple_os_path_exists | apply triple_open_read
    | apply triple_get_files | apply triple_get_libs
    | apply triple_enable_validation
    | apply triple_distributions_enable_validation
    | apply triple_record_call; reflexivity
    | apply triple_clear_param_store
    | apply triple_call_libs_quiet | apply triple_call_libs_entered
    | apply triple_set_libs_quiet
    | apply triple_set_files_entered ].

Ltac triple_go :=
  cbv beta;
  lazymatch goal with
  | |- triple _ (bind _ _) _ _ =>
      eapply triple_bind; [triple_go | intros ?; triple_go]
  | |- triple _ (if ?b then _ else _) _ _ => destruct b; triple_go
  | |- triple _ (let _ := _ in _) _ _ => cbv zeta; triple_go
  | |- _ => triple_step
  end.

Lemma triple_np_random_seed n seed :
  triple (stage T0 F0 (Quiet n)) (np_random_seed seed)
    (λ _, stage T0 F0 (Quiet n)) (good T0 F0).
Proof. unfold np_random_seed. triple_go. Qed.

Lemma triple_torch_random_manual_seed n seed :
  triple (stage T0 F0 (Quiet n)) (torch_random_manual_seed seed)
    (λ _, stage T0 F0 (Quiet n)) (good T0 F0).
Proof. unfold torch_random_manual_seed. triple_go. Qed.

Lemma triple_pyro_set_rng_seed n seed :
  triple (stage T0 F0 (Quiet n)) (pyro_set_rng_seed seed)
    (λ _, stage T0 F0 (Quiet n)) (good T0 F0).
Proof. unfold pyro_set_rng_seed. triple_go. Qed.

Lemma triple_load_model s base_path :
  triple (stage T0 F0 s) (load_model base_path) (λ _, stage T0 F0 s)
    (good T0 F0).
Proof. unfold load_model. triple_go. Qed.

Lemma triple_new_model n cfg :
  triple (stage T0 F0 (Quiet n)) (SVGenotyperPyroModel cfg)
    (λ _, stage T0 F0 (Quiet n)) (good T0 F0).
Proof. unfold SVGenotyperPyroModel. triple_go. Qed.

Lemma triple_io_load_list s path :
  triple (stage T0 F0 s) (io_load_list path) (λ _, stage T0 F0 s) (good T0 F0).
Proof. unfold io_load_list. triple_go. Qed.

Lemma triple_io_load_tensors s base_path sv dt device_name :
  triple (stage T0 F0 s) (io_load_tensors base_path sv dt device_name)
    (λ _, stage T0 F0 s) (good T0 F0).
Proof. unfold io_load_tensors. triple_go. Qed.

Lemma triple_run_discrete mdl d sv n_states log_freq n_samples :
  triple (stage T0 F0 Entered)
    (model_run_discrete mdl d sv n_states log_freq n_samples)
    (λ _, stage T0 F0 Entered) (good T0 F0).
Proof. unfold model_run_discrete. triple_go. Qed.

Lemma triple_write_variant_output path output :
  triple (stage T0 F0 Entered) (io_write_variant_output path output)
    (λ _, stage T0 F0 Entered) (good T0 F0).
Proof. unfold io_write_variant_output. triple_go. Qed.

(** [load_param_store] makes the second clear and leaves in the registry
    what the file holds, and nothing else. *)
Lemma triple_load_param_store base_path device_name :
  triple (stage T0 F0 (Quiet 1)) (load_param_store base_path device_name)
    (λ _, stage T0 F0 Loaded) (good T0 F0).
Proof.
  intros w (Hf & t & Hc & Hn & Hp).
  unfold load_param_store, param_store_load, pyro_clear_param_store, bind,
    record_call, set_registry, set_libs, lift, open_read, get_libs.
  cbn.
  assert (count_clears (t ++ [CallClearParamStore]) = 2) as Hn2
    by (rewrite count_clears_snoc; simpl; lia).
  assert (Forall (λ c, is_predictive c = false) (t ++ [CallClearParamStore]))
    as Hp2 by (apply Forall_app; by repeat constructor).
  destruct (torch_device device_name) as [dev|e]; cbn.
  2:{ exists (Quiet 2). split; [done|]. exists (t ++ [CallClearParamStore]).
      by rewrite Hc, <- app_assoc. }
  assert (∀ w', files w' = F0 →
    calls w' = (calls w ++ [CallClearParamStore]) ++
               [CallParamStoreLoad (base_path +:+ ".param_store.pyro") dev] →
    stage T0 F0 (Quiet 2) w') as Hquiet.
  { intros w' Hf' Hc'. split; [done|].
    exists ((t ++ [CallClearParamStore]) ++
            [CallParamStoreLoad (base_path +:+ ".param_store.pyro") dev]).
    rewrite Hc', Hc, <- !app_assoc. split; [done|].
    rewrite !app_assoc, count_clears_snoc. simpl. split; [lia|].
    apply Forall_app. by repeat constructor. }
  destruct (files w !! (base_path +:+ ".param_store.pyro")) as [[content|]|]
    eqn:Hfile; cbn; try (exists (Quiet 2); by apply Hquiet).
  destruct (torch_load_impl content dev) as [loaded|e] eqn:Hload; cbn;
    [|exists (Quiet 2); by apply Hquiet].
  split; [done|]. split; [by apply Hquiet|].
  exists base_path, dev, content, loaded. rewrite <- Hf.
  split; [done|]. split; [done|]. unfold on_device.
  apply (right_id_L ∅ (∪)).
Qed.

(** [run_predictive] is called with the registry of the [Loaded] phase. *)
Lemma triple_run_predictive mdl d n_samples n_iter :
  triple (stage T0 F0 Loaded) (model_run_predictive mdl d n_samples n_iter)
    (λ _, stage T0 F0 Entered) (good T0 F0).
Proof.
  intros w (Hf & (t & Hc & Hn & Hp) & Hreg).
  unfold model_run_predictive, bind, get_libs, record_call, call_libs. cbn.
  assert (∃ t0 reg t',
    calls w ++ [CallRunPredictive (registry (libs w))]
    = T0 ++ t0 ++ CallRunPredictive reg :: t' ∧
    count_clears t0 = 2 ∧
    Forall (λ c, is_predictive c = false) t0 ∧
    Forall (λ c, is_predictive c = false) t' ∧ from_file F0 reg) as Hentered.
  { exists t, (registry (libs w)), [].
    rewrite Hc, <- app_assoc. by repeat split. }
  destruct (run_predictive_impl mdl d n_samples n_iter (libs w)) as [[a|e] rt];
    cbn; [exact Hentered|].
  exists Entered. exact Hentered.
Qed.

Ltac solve_triple_run :=
  cbv beta;
  lazymatch goal with
  | |- triple _ (bind _ _) _ _ =>
      eapply triple_bind; [solve_triple_run | intros ?; solve_triple_run]
  | |- triple _ (if ?b then _ else _) _ _ => destruct b; solve_triple_run
  | |- triple _ (let _ := _ in _) _ _ => cbv zeta; solve_triple_run
  | |- _ =>
      first
        [ apply triple_np_random_seed | apply triple_torch_random_manual_seed
        | apply triple_pyro_set_rng_seed | apply triple_load_model
        | apply triple_new_model | apply triple_load_param_store
        | apply triple_io_load_list | apply triple_io_load_tensors
        | apply triple_run_predictive | apply triple_run_discrete
        | apply triple_write_variant_output | triple_step ]
  end.

Lemma triple_run args default_dtype :
  triple (stage T0 F0 (Quiet 0)) (run args default_dtype)
    (λ _, stage T0 F0 Entered) (good T0 F0).
Proof. unfold run. solve_triple_run. Qed.

(** In a trace with one call of [run_predictive], that call is where any
    split of the trace at such a call finds it. *)
Lemma predictive_split_unique (t t' pre post : list call) reg reg' :
  Forall (λ c, is_predictive c = false) t →
  Forall (λ c, is_predictive c = false) t' →
  t ++ CallRunPredictive reg :: t' = pre ++ CallRunPredictive reg' :: post →
  pre = t ∧ reg' = reg.
Proof.
  intros Ht Ht'. revert pre. induction Ht as [|c t Hc Ht IH]; intros pre Heq.
  - destruct pre as [|c pre]; simpl in Heq.
    + by injection Heq as ->.
    + injection Heq as <- ->. apply Forall_app in Ht' as [_ Ht'].
      by inversion Ht'.
  - destruct pre as [|c' pre]; simpl in Heq.
    + injection Heq as -> _. discriminate Hc.
    + injection Heq as <- Heq. destruct (IH pre Heq) as [-> ->]. done.
Qed.

Lemma good_no_stale w pre reg post :
  good T0 F0 w → calls w = T0 ++ pre ++ CallRunPredictive reg :: post →
  count_clears pre = 2 ∧ from_file F0 reg.
Proof.
  intros [s Hs] Hcalls. destruct s as [n| |]; simpl in Hs.
  - destruct Hs as (_ & t & Hc & _ & Hp). rewrite Hc in Hcalls.
    apply app_inv_head in Hcalls. subst t.
    apply Forall_app in Hp as [_ Hp]. by inversion Hp.
  - destruct Hs as (_ & (t & Hc & _ & Hp) & _). rewrite Hc in Hcalls.
    apply app_inv_head in Hcalls. subst t.
    apply Forall_app in Hp as [_ Hp]. by inversion Hp.
  - destruct Hs as (t & reg0 & t' & Hc & Hn & Hp & Hp' & Hreg).
    rewrite Hc in Hcalls. apply app_inv_head in Hcalls.
    destruct (predictive_split_unique _ _ _ _ _ _ Hp Hp' Hcalls) as [-> ->].
    done.
Qed.

End Phases.

Section Registry.
Context `{Collaborators}.

Lemma load_param_store_clears_first base_path device_name (w : world) :
  ∃ rest, calls (load_param_store base_path device_name w).2
          = calls w ++ CallClearParamStore :: rest.
Proof.
  unfold load_param_store, param_store_load, pyro_clear_param_store, bind,
    record_call, set_registry, set_libs, lift, open_read, get_libs.
  cbn. destruct (torch_device device_name) as [dev|e]; cbn; [|by eexists].
  destruct (files w !! (base_path +:+ ".param_store.pyro")) as [[content|]|];
    cbn; try (rewrite <- app_assoc; by eexists).
  destruct (torch_load_impl content dev) as [loaded|e]; cbn;
    rewrite <- app_assoc; by eexists.
Qed.

Lemma load_param_store_loads base_path device_name (w : world) dev content loaded :
  torch_device device_name = Ok dev →
  files w !! (base_path +:+ ".param_store.pyro") = Some (File content) →
  torch_load_impl content dev = Ok loaded →
  ∃ w', load_param_store base_path device_name w = (Ok tt, w') ∧
        registry (libs w') = on_device dev loaded ∧
        map_Forall (λ _ t, tensor_device t = dev) (registry (libs w')) ∧
        calls w' = calls w ++
          [CallClearParamStore;
           CallParamStoreLoad (base_path +:+ ".param_store.pyro") dev].
Proof.
  intros Hdev Hfile Hload.
  unfold load_param_store, param_store_load, pyro_clear_param_store, bind,
    record_call, set_registry, set_libs, lift, open_read, get_libs.
  cbn. rewrite Hdev. cbn. rewrite Hfile. cbn. rewrite Hload. cbn.
  eexists. split; [reflexivity|]. cbn.
  rewrite (right_id_L ∅ (∪)). split; [done|]. split; [|by rewrite <- app_assoc].
  intros name t. unfold on_device. rewrite lookup_fmap.
  destruct (loaded !! name); simpl; [|done]. by intros [= <-].
Qed.

Lemma run_good args default_dtype (w : world) :
  good (calls w) (files w) (run args default_dtype w).2.
Proof.
  pose proof (triple_run (calls w) (files w) args default_dtype w) as Hrun.
  destruct (run args default_dtype w) as [[a|e] w']; simpl.
  - exists Entered. apply Hrun. split; [done|]. exists [].
    by rewrite app_nil_r.
  - apply Hrun. split; [done|]. exists []. by rewrite app_nil_r.
Qed.

(** C7, as amended.  [load_param_store] first clears the process-wide
    parameter registry and then loads [<base_path>.param_store.pyro] into
    it, its tensors mapped onto the requested device: afterwards the
    registry holds what the file holds.  In every invocation of [run],
    where inference is called the registry has been cleared exactly twice
    since the invocation began, and it holds what a parameter-store file
    holds: no parameter of an earlier run is left in it. *)
Theorem param_store_cleared_before_inference
    base_path device_name args default_dtype (w : world) :
  (∃ rest, calls (load_param_store base_path device_name w).2
           = calls w ++ CallClearParamStore :: rest) ∧
  (∀ dev content loaded,
     torch_device device_name = Ok dev →
     files w !! (base_path +:+ ".param_store.pyro") = Some (File content) →
     torch_load_impl content dev = Ok loaded →
     ∃ w', load_param_store base_path device_name w = (Ok tt, w') ∧
           registry (libs w') = on_device dev loaded ∧
           map_Forall (λ _ t, tensor_device t = dev) (registry (libs w')) ∧
           calls w' = calls w ++
             [CallClearParamStore;
              CallParamStoreLoad (base_path +:+ ".param_store.pyro") dev]) ∧
  (∀ pre reg post,
     calls (run args default_dtype w).2
     = calls w ++ pre ++ CallRunPredictive reg :: post →
     count_clears pre = 2 ∧ from_file (files w) reg).
Proof.
  split; [apply load_param_store_clears_first|].
  split; [apply load_param_store_loads|].
  intros pre reg post. apply good_no_stale, run_good.
Qed.

End Registry.

(** A run on [models/m] when no file is there. *)
Lemma run_missing_model_witness :
  ∃ w', run stub_args torch_float32 (used_world ∅)
        = (Raise (RuntimeError "Model at not found: models/m"), w') ∧
        files w' = ∅ ∧
        calls w' = [CallClearParamStore; CallClearParamStore;
                    CallSeedNumpy (PyInt 42); CallSeedTorch (PyInt 42);
                    CallSeedPyro (PyInt 42)].
Proof.
  destruct (run_missing_model stub_args torch_float32 (used_world ∅)
              (PyInt 42) 42%Z 42%Z 42%Z (PyStr "DEL") "DEL" (PyStr "models")
              (PyStr "m") "models/m")
    as (w' & Hrun & Hfiles & Hcalls & _);
    try reflexivity.
  exists w'. split; [exact Hrun|]. split; [exact Hfiles | exact Hcalls].
Defined.

(** A run on [models/m] in a process whose registry holds an entry of an
    earlier run: inference sees the two tensors of the file. *)
Lemma param_store_cleared_before_inference_witness :
  (∃ w', load_param_store "models/m" (PyStr "cpu") (used_world model_files)
         = (Ok tt, w') ∧
         registry (libs w') = stub_registry) ∧
  count_clears
    [CallClearParamStore; CallSeedNumpy (PyInt 42); CallSeedTorch (PyInt 42);
     CallSeedPyro (PyInt 42); CallNewModel; CallClearParamStore;
     CallParamStoreLoad "models/m.param_store.pyro" "cpu";
     CallLoadList "models/m.vids.list"; CallLoadTensors "models/m"] = 2 ∧
  from_file model_files stub_registry.
Proof.
  destruct (param_store_cleared_before_inference "models/m" (PyStr "cpu")
              stub_args torch_float32 (used_world model_files))
    as (_ & Hload & Hrun).
  split.
  - destruct (Hload "cpu" "pickle"
                {[ "pi_sr1" := [0.5]%float; "pi_sr2" := [0.25]%float ]})
      as (w' & Hw' & Hreg & _); try reflexivity.
    exists w'. split; [exact Hw' | exact Hreg].
  - apply (Hrun _ stub_registry
             [CallRunDiscrete stub_registry;
              CallWriteOutput (PyStr "out.tsv") scenario_output]).
    reflexivity.
Defined.

(** C7 as stated fails: an invocation of [run] that finds no hyperparameter
    file raises before it comes to [load_param_store], and has cleared the
    registry once. *)
Lemma aborted_run_clears_once :
  (run stub_args torch_float32 (fresh_world ∅)).1
  = Raise (RuntimeError "Model at not found: models/m") ∧
  count_clears (calls (run stub_args torch_float32 (fresh_world ∅)).2) = 1.
Proof. split; reflexivity. Qed.

(** A run in a fresh process and one in a used process give the same
    records. *)
Lemma run_deterministic_witness :
  (run stub_args torch_float32 (fresh_world model_files)).1
  = (run stub_args torch_float32 (used_world model_files)).1 ∧
  files (run stub_args torch_float32 (fresh_world model_files)).2
  = files (run stub_args torch_float32 (used_world model_files)).2.
Proof.
  apply (run_deterministic stub_args torch_float32 (fresh_world model_files)
           (used_world model_files)).
  reflexivity.
Defined.

(** * Further properties of the output projector *)

Set Warnings "-clear-no-such-hyp".

Section GetOutputMore.

Implicit Types (vids : list string) (stats : gmap string (gmap string ndarray))
  (params : gmap string pyval) (r : output_record) (out : list output_record).

Lemma get_output_loop_ext body body' indices acc :
  Forall (λ i, body i = body' i) indices →
  get_output_loop body indices acc = get_output_loop body' indices acc.
Proof.
  intros Hext. revert acc. induction Hext as [|i rest Hi _ IH]; intros acc.
  - done.
  - simpl. rewrite Hi. destruct (body' i) as [r|e]; simpl; [apply IH | done].
Qed.

(** The body for index [i] reads [vids_list] at [i] only. *)
Lemma get_output_body_vid vids vids' stats params i :
  vids !! i = vids' !! i →
  get_output_body vids stats params i = get_output_body vids' stats params i.
Proof. intros Hi. unfold get_output_body, list_getitem. by rewrite Hi. Qed.

(** X1.  The record of a variant depends on its position only: when
    [get_output] returns for [vids_list], it returns for each prefix of
    [vids_list] the corresponding prefix of the records. *)
Theorem get_output_prefix vids stats params out n :
  get_output vids stats params = Ok out →
  get_output (take n vids) stats params = Ok (take n out).
Proof.
  intros Hout. apply get_output_ok in Hout. unfold get_output.
  rewrite (get_output_loop_ext _ (get_output_body vids stats params)).
  - apply get_output_loop_ok. exists (take n out). split; [|done].
    rewrite length_take, <- take_seq. by apply Forall2_take.
  - apply Forall_forall. intros i Hi%elem_of_seq.
    apply get_output_body_vid. rewrite length_take in Hi.
    apply lookup_take_lt. lia.
Qed.

(** The first of the two variants of the scenario. *)
Lemma get_output_prefix_witness :
  get_output (take 1 scenario_vids) scenario_stats scenario_params
  = Ok (take 1 scenario_output).
Proof.
  apply (get_output_prefix scenario_vids scenario_stats scenario_params
           scenario_output 1).
  vm_compute. reflexivity.
Defined.

Lemma get_output_loop_raise body done_ j rest acc e :
  Forall (λ i, is_ok (body i) = true) done_ → body j = Raise e →
  get_output_loop body (done_ ++ j :: rest) acc = Raise e.
Proof.
  intros Hdone Hj. revert acc.
  induction Hdone as [|i done_ Hi _ IH]; intros acc; simpl.
  - by rewrite Hj.
  - destruct (body i) as [r|e']; [simpl; apply IH | discriminate Hi].
Qed.

Lemma get_output_loop_raise_inv body indices acc e :
  get_output_loop body indices acc = Raise e →
  ∃ done_ j rest, indices = done_ ++ j :: rest ∧
    Forall (λ i, is_ok (body i) = true) done_ ∧ body j = Raise e.
Proof.
  revert acc. induction indices as [|i indices IH]; intros acc; simpl; [done|].
  destruct (body i) as [r|e'] eqn:Hi; simpl.
  - intros (done_ & j & rest & -> & Hdone & Hj)%IH.
    exists (i :: done_), j, rest. split; [done|]. split; [|done].
    constructor; [by rewrite Hi | done].
  - intros [= ->]. exists [], i, indices. by repeat split.
Qed.

(** X2.  [get_output] raises exactly the exception of the first variant
    whose record cannot be built; the records built for the variants before
    it are dropped, no partial list is returned. *)
Theorem get_output_first_failure vids stats params e :
  get_output vids stats params = Raise e ↔
  ∃ j, j < length vids ∧
       (∀ i, i < j → is_ok (get_output_body vids stats params i) = true) ∧
       get_output_body vids stats params j = Raise e.
Proof.
  unfold get_output. split.
  - intros (done_ & j & rest & Hseq & Hdone & Hj)%get_output_loop_raise_inv.
    assert (done_ = seq 0 (length done_) ∧ j = length done_ ∧
            length done_ < length vids) as (Hd & -> & Hlt).
    { assert (length (seq 0 (length vids)) = length (done_ ++ j :: rest))
        as Hlen by (by rewrite Hseq).
      rewrite length_seq, length_app in Hlen. simpl in Hlen.
      assert (seq 0 (length vids) !! length done_ = Some j) as Hjth.
      { rewrite Hseq. by rewrite list_lookup_middle. }
      apply lookup_seq in Hjth as [Hjeq _]. simpl in Hjeq. subst j.
      split; [|split; [done | lia]].
      apply list_eq. intros i. destruct (decide (i < length done_)) as [Hi|Hi].
      - rewrite lookup_seq_lt by done.
        assert (seq 0 (length vids) !! i = done_ !! i) as Hith.
        { rewrite Hseq. by rewrite lookup_app_l. }
        rewrite <- Hith. rewrite lookup_seq_lt by lia. done.
      - rewrite lookup_seq_ge by lia. rewrite lookup_ge_None_2 by lia. done. }
    exists (length done_). split; [done|]. split; [|done].
    intros i Hi. rewrite Forall_forall in Hdone. apply Hdone.
    rewrite Hd. apply elem_of_seq. lia.
  - intros (j & Hj & Hbefore & Hraise).
    assert (seq 0 (length vids) = seq 0 j ++ j :: seq (S j) (length vids - S j))
      as ->.
    { set (k := length vids - S j).
      assert (length vids = j + S k) as -> by lia. by rewrite seq_app. }
    apply get_output_loop_raise; [|done].
    apply Forall_forall. intros i Hi%elem_of_seq. apply Hbefore. lia.
Qed.

(** *** The inputs that [get_output] can read *)

Lemma site_at_ok_mean stats site i x :
  site_at stats site i = Ok x ↔
  ∃ items, mean_of stats site = Some (NDArray items) ∧ items !! i = Some x.
Proof.
  split.
  - unfold site_at, site_mean, mean_of, getitem.
    destruct (stats !! site) as [d|]; [simpl | done].
    destruct (d !! "mean") as [[y|items]|]; [done | | done]. simpl.
    unfold list_getitem. destruct (items !! i) as [x'|] eqn:Hx; [|done].
    intros [= ->]. by exists items.
  - intros (items & Hm & Hx). by eapply site_at_mean.
Qed.

Lemma rows_ok_site_at n stats site :
  0 < n →
  rows_ok n stats site = true ↔
  ∀ i, i < n → ∃ x, site_at stats site i = Ok x ∧ item_ok site x = true.
Proof.
  intros Hn. unfold rows_ok. split.
  - destruct (mean_of stats site) as [[y|items]|] eqn:Hm; [done | | done].
    intros [Hlen%Nat.leb_le Hitems]%andb_prop i Hi.
    destruct (lookup_lt_is_Some_2 items i) as [x Hx]; [lia|].
    exists x. split; [by eapply site_at_mean|].
    rewrite forallb_forall in Hitems. apply Hitems, list_elem_of_In.
    apply (list_elem_of_lookup_2 _ i). by rewrite lookup_take_lt.
  - intros Hall. destruct (Hall 0 Hn) as (x0 & Hx0 & _).
    apply site_at_ok_mean in Hx0 as (items & Hm & _). rewrite Hm.
    assert (n ≤ length items) as Hlen.
    { destruct (decide (n ≤ length items)) as [|Hlt]; [done|]. exfalso.
      destruct (Hall (length items)) as (x & Hx & _); [lia|].
      apply site_at_ok_mean in Hx as (items' & Hm' & Hx).
      rewrite Hm in Hm'. injection Hm' as <-.
      apply lookup_lt_Some in Hx. lia. }
    apply andb_true_intro. split; [by apply Nat.leb_le|].
    apply forallb_forall. intros x [i Hx]%list_elem_of_In%list_elem_of_lookup.
    assert (i < n) as Hi.
    { apply lookup_lt_Some in Hx. rewrite length_take in Hx. lia. }
    rewrite lookup_take_lt in Hx by done.
    destruct (Hall i Hi) as (x' & Hx' & Hok).
    apply site_at_ok_mean in Hx' as (items' & Hm' & Hx').
    rewrite Hm in Hm'. injection Hm' as <-. congruence.
Qed.

Lemma freq_z_ok_iff stats i y :
  (site_mean stats "z" ≫= λ a, nd_index_row a i) = Ok y ↔
  site_at stats "z" i = Ok y ∧ item_ok "z" y = true.
Proof.
  unfold site_at. destruct (site_mean stats "z") as [[x|items]|e]; simpl;
    [naive_solver | | naive_solver].
  unfold list_getitem. destruct (items !! i) as [[x|row]|]; simpl;
    [|naive_solver|naive_solver].
  split; [done|]. by intros [[= <-] ?].
Qed.

(** The product of an element with a prior is there exactly when the
    prior is a number that converts to a double. *)
Lemma nd_mul_ok_iff x v :
  nd_size x ≠ 0 →
  (∃ y, nd_mul x v = Ok y) ↔ converts_to_double v = true.
Proof.
  intros Hx. split; [|apply nd_mul_total].
  destruct v as [|b|z|y|s]; simpl; try done; try by intros [? [=]].
  destruct (fits_double z); [done|]. simpl.
  destruct (Nat.eqb_spec (nd_size x) 0); [done | by intros [? [=]]].
Qed.

Lemma site_scaled_returns stats params site prior i :
  (∃ x, site_at stats site i = Ok x) → number_at params prior = true →
  ∃ y, site_scaled stats params site prior i = Ok y.
Proof.
  intros [x Hx] Hp. unfold site_scaled, number_at, getitem in *.
  rewrite Hx. simpl. destruct (params !! prior) as [v|]; [simpl | done].
  by apply nd_mul_total.
Qed.

Lemma site_scaled_ok_number stats params site prior i y :
  site_scaled stats params site prior i = Ok y →
  ∃ x, site_at stats site i = Ok x ∧
       (nd_size x ≠ 0 → number_at params prior = true).
Proof.
  unfold site_scaled, number_at, getitem.
  destruct (site_at stats site i) as [x|e]; simpl; [|done].
  destruct (params !! prior) as [v|]; simpl; [|done].
  intros Hy. exists x. split; [done|]. intros Hx.
  apply (nd_mul_ok_iff x v Hx). by exists y.
Qed.

Lemma rates_nonempty_site_at n stats site i x :
  rates_nonempty n stats = true → site ∈ rate_sites → i < n →
  site_at stats site i = Ok x → nd_size x ≠ 0.
Proof.
  unfold rates_nonempty. rewrite forallb_forall. intros Hall Hin Hi Hx.
  apply list_elem_of_In, Hall in Hin.
  apply site_at_ok_mean in Hx as (items & Hm & Hx). rewrite Hm in Hin.
  rewrite forallb_forall in Hin.
  assert (negb (nd_size x =? 0) = true) as Hsize.
  { apply Hin, list_elem_of_In. apply (list_elem_of_lookup_2 _ i).
    by rewrite lookup_take_lt. }
  apply negb_true_iff, Nat.eqb_neq in Hsize. done.
Qed.

Lemma optional_field_ok_iff stats site value :
  (∃ c, optional_field stats site value = Ok c) ↔
  contains site stats = false ∨ ∃ x, value = Ok x.
Proof.
  unfold optional_field. destruct (contains site stats); [|naive_solver].
  destruct value as [x|e]; simpl; naive_solver.
Qed.

(** The body returns exactly when each of its expressions evaluates. *)
Lemma get_output_body_returns vids stats params i :
  (∃ r, get_output_body vids stats params i = Ok r) ↔
  is_Some (vids !! i) ∧
  (contains "eps_pe" stats = false ∨
   ∃ x, site_scaled stats params "eps_pe" "mu_eps_pe" i = Ok x) ∧
  (contains "phi_pe" stats = false ∨ ∃ x, site_at stats "phi_pe" i = Ok x) ∧
  (contains "m_pe" stats = false ∨ ∃ x, site_at stats "m_pe" i = Ok x) ∧
  (∃ x, site_at stats "z" i = Ok x ∧ item_ok "z" x = true) ∧
  (∃ x, site_at stats "m_sr1" i = Ok x) ∧
  (∃ x, site_at stats "m_sr2" i = Ok x) ∧
  (∃ x, site_scaled stats params "eps_sr1" "mu_eps_sr1" i = Ok x) ∧
  (∃ x, site_scaled stats params "eps_sr2" "mu_eps_sr2" i = Ok x) ∧
  (∃ x, site_at stats "phi_sr1" i = Ok x) ∧
  (∃ x, site_at stats "phi_sr2" i = Ok x).
Proof.
  rewrite <- !optional_field_ok_iff. split.
  - intros [r Hr]. apply get_output_body_ok in Hr.
    destruct Hr as (Hv & H1 & H2 & H3 & Hz%freq_z_ok_iff & H5 & H6 & H7 & H8
                    & H9 & H10).
    repeat split; eauto.
  - intros ([v Hv] & [c1 H1] & [c2 H2] & [c3 H3] & (z & Hz) & [x1 H5] & [x2 H6]
            & [y1 H7] & [y2 H8] & [x3 H9] & [x4 H10]).
    apply freq_z_ok_iff in Hz.
    exists (Build_output_record v z c3 x1 x2 c1 y1 y2 c2 x3 x4).
    apply get_output_body_ok. simpl. by repeat split.
Qed.

Lemma get_output_returns_bodies vids stats params :
  (∃ out, get_output vids stats params = Ok out) ↔
  ∀ i, i < length vids → ∃ r, get_output_body vids stats params i = Ok r.
Proof.
  split.
  - intros [out Hout] i Hi.
    destruct (lookup_lt_is_Some_2 out i) as [r Hr].
    { by rewrite (get_output_length _ _ _ _ Hout). }
    exists r. by eapply get_output_lookup.
  - intros Hall.
    assert (∀ indices, Forall (λ i, i < length vids) indices →
      ∃ out, Forall2 (λ i r, get_output_body vids stats params i = Ok r)
               indices out) as Hloop.
    { induction indices as [|i rest IH]; intros Hlt.
      - exists []. constructor.
      - inversion Hlt as [|? ? Hi Hrest]; subst.
        destruct (Hall i Hi) as [r Hr]. destruct (IH Hrest) as [out Hout].
        exists (r :: out). by constructor. }
    destruct (Hloop (seq 0 (length vids))) as [out Hout].
    { apply Forall_forall. intros i Hi%elem_of_seq. lia. }
    exists out. by apply get_output_ok.
Qed.

Lemma rows_ok_plain n stats site :
  0 < n → (∀ x, item_ok site x = true) →
  rows_ok n stats site = true ↔ ∀ i, i < n → ∃ x, site_at stats site i = Ok x.
Proof.
  intros Hn Hplain. rewrite rows_ok_site_at by done. split.
  - intros Hall i Hi. destruct (Hall i Hi) as (x & Hx & _). by exists x.
  - intros Hall i Hi. destruct (Hall i Hi) as (x & Hx). by exists x.
Qed.

Lemma optional_rows_ok n stats site :
  0 < n → (∀ x, item_ok site x = true) →
  negb (contains site stats) || rows_ok n stats site = true ↔
  ∀ i, i < n → contains site stats = false ∨ ∃ x, site_at stats site i = Ok x.
Proof.
  intros Hn Hplain. destruct (contains site stats); simpl.
  - rewrite rows_ok_plain by done. naive_solver.
  - naive_solver.
Qed.

Lemma site_scaled_reads stats params site prior i :
  (∃ y, site_scaled stats params site prior i = Ok y) →
  ∃ x, site_at stats site i = Ok x.
Proof.
  intros [y (x & Hx & _)%site_scaled_ok_number]. by exists x.
Qed.

(** X3.  When [get_output] returns.  It returns when [vids_list] is empty
    or everything it reads is there: each required site has a ['mean'] array
    with at least one item per variant (rows, for [z]), so has each
    paired-end site that is a key of [stats], [mu_eps_sr1] and [mu_eps_sr2]
    are numbers that convert to a double, and so is [mu_eps_pe] when
    [eps_pe] is a key.  And it returns only then, for hyperparameters that
    are JSON scalars and statistics in which the means that are multiplied
    by a prior hold no array without elements among the items that are read
    (on such an array the product with an integer too large for a double
    depends on the version of numpy).  So an
    array with fewer items than variants, a prior that is no number and an
    integer prior that does not fit a double each make it raise; items
    beyond the variants are not looked at. *)
Theorem get_output_returns_iff vids stats params :
  (vids = [] ∨ readable (length vids) stats params = true →
   ∃ out, get_output vids stats params = Ok out) ∧
  (rates_nonempty (length vids) stats = true →
   (∃ out, get_output vids stats params = Ok out) →
   vids = [] ∨ readable (length vids) stats params = true).
Proof.
  destruct vids as [|v vids]; [split; [by exists [] | by left]|].
  rewrite get_output_returns_bodies.
  remember (length (v :: vids)) as n eqn:Hlen.
  assert (0 < n) as Hn by (subst n; simpl; lia).
  split.
  - intros [Hempty|Hread]; [done|]. intros i Hi.
    unfold readable, required_sites, optional_sites in Hread.
    cbn [forallb] in Hread. rewrite !andb_true_iff in Hread.
    rewrite rows_ok_site_at, !rows_ok_plain, !optional_rows_ok in Hread by done.
    destruct Hread as (((((Hz & H1 & H2 & H3 & H4 & H5 & H6 & _)
                          & (He & Hp & Hm & _)) & Hn1) & Hn2) & Hne).
    apply get_output_body_returns.
    split; [apply lookup_lt_is_Some_2; by rewrite <- Hlen|].
    split.
    { destruct (He i Hi) as [Habs|Hx]; [by left|].
      destruct (contains "eps_pe" stats) eqn:Hin; [|by left].
      right. by apply site_scaled_returns. }
    split; [by apply Hp|]. split; [by apply Hm|]. split; [by apply Hz|].
    split; [by apply H1|]. split; [by apply H2|].
    split; [apply site_scaled_returns; [by apply H3 | done]|].
    split; [apply site_scaled_returns; [by apply H4 | done]|].
    split; [by apply H5 | by apply H6].
  - intros Hsome Hall. right.
    assert (∀ site i x, site ∈ rate_sites → i < n →
              site_at stats site i = Ok x → nd_size x ≠ 0) as Hsize
      by (intros site i x; by apply rates_nonempty_site_at).
    assert (∀ i, i < n → _) as Hfields
      by (intros i Hi; exact (proj1 (get_output_body_returns _ _ _ i) (Hall i Hi))).
    unfold readable, required_sites, optional_sites. cbn [forallb].
    rewrite !andb_true_iff.
    rewrite rows_ok_site_at, !rows_ok_plain, !optional_rows_ok by done.
    destruct (Hfields 0 Hn)
      as (_ & He0 & _ & _ & _ & _ & _ & [y1 Hs1] & [y2 Hs2] & _).
    apply site_scaled_ok_number in Hs1 as (x1 & Hx1 & Hs1).
    apply site_scaled_ok_number in Hs2 as (x2 & Hx2 & Hs2).
    assert ("eps_pe" ∈ rate_sites ∧ "eps_sr1" ∈ rate_sites
            ∧ "eps_sr2" ∈ rate_sites) as (Hin0 & Hin1 & Hin2)
      by (unfold rate_sites; rewrite !elem_of_cons; tauto).
    specialize (Hs1 (Hsize _ _ _ Hin1 Hn Hx1)).
    specialize (Hs2 (Hsize _ _ _ Hin2 Hn Hx2)).
    repeat split; try done;
      try (intros i Hi;
           destruct (Hfields i Hi)
             as (_ & He & Hp & Hm & Hz & H1 & H2 & H3%site_scaled_reads
                 & H4%site_scaled_reads & H5 & H6);
           first [ exact Hz | exact H1 | exact H2 | exact H3
                 | exact H4 | exact H5 | exact H6 | exact Hp | exact Hm
                 | idtac ]).
    + destruct He as [He|He%site_scaled_reads]; [by left | by right].
    + destruct (contains "eps_pe" stats); [simpl|done].
      destruct He0 as [He0|[y0 He0]]; [done|].
      apply site_scaled_ok_number in He0 as (x0 & Hx0 & He0).
      apply He0. exact (Hsize _ _ _ Hin0 Hn Hx0).
Qed.

(** *** What [get_output] does not read *)

Lemma site_mean_view stats site :
  site_mean stats site =
  match site_view stats site with
  | Some (Some a) => Ok a
  | Some None => Raise (KeyError "mean")
  | None => Raise (KeyError site)
  end.
Proof.
  unfold site_mean, site_view, getitem.
  destruct (stats !! site) as [d|]; simpl; [|done]. by destruct (d !! "mean").
Qed.

Lemma contains_view stats site :
  contains site stats = match site_view stats site with
                        | Some _ => true
                        | None => false
                        end.
Proof. unfold contains, site_view. by destruct (stats !! site). Qed.

(** X4.  [get_output] reads nothing but the ['mean'] entries of its ten
    sites and the three [mu_eps] priors: statistics that agree on these
    entries (and on which of the sites are keys) and hyperparameters that
    agree on these priors give the same result, records or exception.
    Other sites, ['std'] entries and the other hyperparameters ([k], the
    [var_phi] priors, [read_length], [loss]) have no influence. *)
Theorem get_output_reads_only vids stats stats' params params' :
  (∀ site, site ∈ optional_sites ++ required_sites →
           site_view stats site = site_view stats' site) →
  (∀ key, key ∈ output_priors → params !! key = params' !! key) →
  get_output vids stats params = get_output vids stats' params'.
Proof.
  intros Hsites Hpriors. unfold get_output.
  apply get_output_loop_ext, Forall_forall. intros i _.
  assert (∀ site, site ∈ optional_sites ++ required_sites →
    site_mean stats site = site_mean stats' site ∧
    contains site stats = contains site stats') as Hsame.
  { intros site Hin. rewrite !site_mean_view, !contains_view.
    by rewrite (Hsites site Hin). }
  assert (∀ key, key ∈ output_priors → getitem params key = getitem params' key)
    as Hget.
  { intros key Hin. unfold getitem. by rewrite (Hpriors key Hin). }
  unfold get_output_body, site_scaled, site_at.
  destruct (Hsame "eps_pe") as [-> ->]; [set_solver|].
  destruct (Hsame "phi_pe") as [-> ->]; [set_solver|].
  destruct (Hsame "m_pe") as [-> ->]; [set_solver|].
  destruct (Hsame "z") as [-> _]; [set_solver|].
  destruct (Hsame "m_sr1") as [-> _]; [set_solver|].
  destruct (Hsame "m_sr2") as [-> _]; [set_solver|].
  destruct (Hsame "eps_sr1") as [-> _]; [set_solver|].
  destruct (Hsame "eps_sr2") as [-> _]; [set_solver|].
  destruct (Hsame "phi_sr1") as [-> _]; [set_solver|].
  destruct (Hsame "phi_sr2") as [-> _]; [set_solver|].
  rewrite (Hget "mu_eps_pe"), (Hget "mu_eps_sr1"), (Hget "mu_eps_sr2");
    [done | set_solver..].
Qed.

(** X5.  The prior of the paired-end noise rate is needed as soon as
    [eps_pe] is among the statistics: with a variant to project and a
    non-empty mean for [eps_pe], a [params] without [mu_eps_pe] makes
    [get_output] raise the key-lookup error for [mu_eps_pe], whatever else
    the inputs hold. *)
Theorem get_output_eps_pe_needs_prior vids stats params x items :
  vids ≠ [] →
  mean_of stats "eps_pe" = Some (NDArray (x :: items)) →
  params !! "mu_eps_pe" = None →
  get_output vids stats params = Raise (KeyError "mu_eps_pe").
Proof.
  intros Hne Hmean Hprior. apply get_output_first_raise; [|done].
  destruct vids as [|v vids]; [done|].
  unfold get_output_body, optional_field. simpl.
  assert (contains "eps_pe" stats = true) as ->.
  { unfold contains, mean_of in *. by destruct (stats !! "eps_pe"). }
  unfold site_scaled. rewrite (site_at_mean _ _ _ 0 x Hmean); [|done].
  simpl. unfold getitem. by rewrite Hprior.
Qed.

End GetOutputMore.

(** The scenario can be read, and is projected; with the prior [10^400] for
    [mu_eps_sr1] it cannot, and the first product raises. *)
Lemma get_output_returns_iff_witness :
  (∃ out, get_output scenario_vids scenario_stats scenario_params = Ok out) ∧
  (¬ ∃ out, get_output scenario_vids scenario_stats overflowing_params = Ok out) ∧
  get_output scenario_vids scenario_stats overflowing_params
  = Raise OverflowError.
Proof.
  split; [|split].
  - apply (get_output_returns_iff scenario_vids scenario_stats scenario_params).
    right. vm_compute. reflexivity.
  - intros Hout.
    destruct (get_output_returns_iff scenario_vids scenario_stats
                overflowing_params) as [_ Honly].
    destruct (Honly eq_refl Hout) as [Hnil|Hread]; [discriminate Hnil|].
    vm_compute in Hread. discriminate Hread.
  - vm_compute. reflexivity.
Defined.

(** Statistics with a further site and ['std'] entries, and hyperparameters
    with another [k], project as the scenario does. *)
Lemma get_output_reads_only_witness :
  get_output scenario_vids
    (<["pi_pe" := mean_vector [0.5]%float]>
       (<["m_sr1" := <["std" := NDArray []]> (mean_vector [0.5; 0.25]%float)]>
          scenario_stats))
    (<["k" := PyInt 3]> scenario_params)
  = Ok scenario_output.
Proof.
  rewrite (get_output_reads_only scenario_vids _ scenario_stats _ scenario_params).
  - vm_compute. reflexivity.
  - intros site Hin. unfold optional_sites, required_sites in Hin. simpl in Hin.
    repeat (apply elem_of_cons in Hin as [->|Hin]; [reflexivity|]).
    by apply elem_of_nil in Hin.
  - intros key Hin. unfold output_priors in Hin.
    repeat (apply elem_of_cons in Hin as [->|Hin]; [reflexivity|]).
    by apply elem_of_nil in Hin.
Defined.

(** The scenario with the paired-end noise rate among the statistics and no
    prior for it. *)
Lemma get_output_eps_pe_needs_prior_witness :
  get_output scenario_vids paired_end_stats (delete "mu_eps_pe" scenario_params)
  = Raise (KeyError "mu_eps_pe").
Proof.
  apply (get_output_eps_pe_needs_prior scenario_vids paired_end_stats
           (delete "mu_eps_pe" scenario_params) (Scalar 0.5) [Scalar 0.125]).
  - discriminate.
  - reflexivity.
  - reflexivity.
Defined.

(** * Properties of the global summary *)

Section GlobalStats.

Implicit Types (stats : gmap string (gmap string ndarray))
  (g : gmap string ndarray).

Lemma global_scale_one site :
  site ∈ scaled_sites → global_site_scales !! site = Some 1%float.
Proof.
  unfold scaled_sites. intros Hin.
  repeat (apply elem_of_cons in Hin as [->|Hin]; [done|]).
  by apply elem_of_nil in Hin.
Qed.

Lemma global_scaled_ok stats site entry y :
  site ∈ scaled_sites →
  global_scaled stats site entry = Ok y ↔
  ∃ d a, stats !! site = Some d ∧ d !! entry = Some a ∧ y = nd_scale a 1.
Proof.
  intros Hin. unfold global_scaled, getitem.
  rewrite (global_scale_one site Hin).
  destruct (stats !! site) as [d|]; simpl.
  - destruct (d !! entry) as [a|] eqn:Ha; simpl.
    + split; [intros [= <-]; by exists d, a|].
      intros (d' & a' & [= <-] & Ha' & ->). rewrite Ha in Ha'.
      by injection Ha' as <-.
    + split; [done|]. intros (d' & a' & [= <-] & Ha' & _). congruence.
  - split; [done|]. by intros (d' & a' & ? & _).
Qed.

(** One round of the loop, for a site that has a scale. *)
Lemma global_stats_body_ok stats g site g' :
  site ∈ scaled_sites →
  global_stats_body stats g site = Ok g' ↔
  (stats !! site = None ∧ g' = g) ∨
  (∃ d m s, stats !! site = Some d ∧ d !! "mean" = Some m ∧
            d !! "std" = Some s ∧
            g' = <[site +:+ "_std" := nd_scale s 1]>
                   (<[site +:+ "_mean" := nd_scale m 1]> g)).
Proof.
  intros Hin. unfold global_stats_body, contains.
  destruct (stats !! site) as [d|] eqn:Hd.
  2:{ split; [intros [= <-]; by left|]. intros [[_ ->]|(d & ? & ? & ? & _)]; done. }
  split.
  - intros (m & Hm & (s & Hs & [= <-])%bind_ok_inv)%bind_ok_inv.
    apply global_scaled_ok in Hm as (d1 & a1 & Hd1 & Ha1 & ->); [|done].
    apply global_scaled_ok in Hs as (d2 & a2 & Hd2 & Ha2 & ->); [|done].
    right. exists d, a1, a2. by simplify_eq.
  - intros [[? _]|(d' & m & s & [= <-] & Hm & Hs & ->)]; [done|].
    assert (global_scaled stats site "mean" = Ok (nd_scale m 1)) as ->
      by (apply global_scaled_ok; naive_solver).
    simpl.
    assert (global_scaled stats site "std" = Ok (nd_scale s 1)) as ->
      by (apply global_scaled_ok; naive_solver).
    done.
Qed.

(** The round for [pi_rd], which has no scale. *)
Lemma global_stats_body_pi_rd stats g :
  global_stats_body stats g "pi_rd" =
  match stats !! "pi_rd" with
  | None => Ok g
  | Some d =>
      match d !! "mean" with
      | Some _ => Raise (KeyError "pi_rd")
      | None => Raise (KeyError "mean")
      end
  end.
Proof.
  unfold global_stats_body, contains, global_scaled, getitem.
  destruct (stats !! "pi_rd") as [d|]; [simpl | done].
  by destruct (d !! "mean").
Qed.

(** The three rounds that have a scale, then the round for [pi_rd]. *)
Lemma get_global_stats_rounds {Model} stats (model : Model) g :
  get_global_stats stats model = Ok g ↔
  ∃ g1 g2,
    global_stats_body stats ∅ "pi_sr1" = Ok g1 ∧
    global_stats_body stats g1 "pi_sr2" = Ok g2 ∧
    global_stats_body stats g2 "pi_pe" = Ok g ∧
    stats !! "pi_rd" = None.
Proof.
  unfold get_global_stats, global_sites. cbn [global_stats_loop]. split.
  - intros (g1 & H1 & (g2 & H2 & (g3 & H3 & (g4 & H4 & [= <-])%bind_ok_inv)
                         %bind_ok_inv)%bind_ok_inv)%bind_ok_inv.
    rewrite global_stats_body_pi_rd in H4.
    destruct (stats !! "pi_rd") as [d|]; [by destruct (d !! "mean")|].
    injection H4 as <-. by exists g1, g2.
  - intros (g1 & g2 & H1 & H2 & H3 & Hrd).
    rewrite H1. cbn [mbind result_bind]. rewrite H2. cbn [mbind result_bind].
    rewrite H3. cbn [mbind result_bind].
    by rewrite global_stats_body_pi_rd, Hrd.
Qed.

(** X6.  What [get_global_stats] returns: for each of [pi_sr1], [pi_sr2]
    and [pi_pe] that is a key of [stats], the entries [<site>_mean] and
    [<site>_std], holding the site's ['mean'] and ['std'] times the scale 1;
    and no other entry.  It returns only when [pi_rd] is not a key. *)
Theorem get_global_stats_result {Model} stats (model : Model) g :
  get_global_stats stats model = Ok g →
  stats !! "pi_rd" = None ∧
  (∀ site, site ∈ scaled_sites →
     match stats !! site with
     | Some d =>
         ∃ m s, d !! "mean" = Some m ∧ d !! "std" = Some s ∧
                g !! (site +:+ "_mean") = Some (nd_scale m 1) ∧
                g !! (site +:+ "_std") = Some (nd_scale s 1)
     | None =>
         g !! (site +:+ "_mean") = None ∧ g !! (site +:+ "_std") = None
     end) ∧
  (∀ key, is_Some (g !! key) →
     ∃ site, site ∈ scaled_sites ∧ is_Some (stats !! site) ∧
             (key = site +:+ "_mean" ∨ key = site +:+ "_std")).
Proof.
  intros (g1 & g2 & H1 & H2 & H3 & Hrd)%get_global_stats_rounds.
  apply global_stats_body_ok in H1, H2, H3; [|set_solver..].
  split; [done|].
  destruct H1 as [[Hs1 ->]|(d1 & m1 & s1 & Hs1 & Hm1 & Hd1 & ->)];
    destruct H2 as [[Hs2 ->]|(d2 & m2 & s2 & Hs2 & Hm2 & Hd2 & ->)];
    destruct H3 as [[Hs3 ->]|(d3 & m3 & s3 & Hs3 & Hm3 & Hd3 & ->)];
    (split;
     [ intros site Hin; unfold scaled_sites in Hin;
       repeat (apply elem_of_cons in Hin as [->|Hin];
               [rewrite ?Hs1, ?Hs2, ?Hs3; simpl; eauto 10|]);
       by apply elem_of_nil in Hin
     | intros key Hkey; simpl in Hkey;
       repeat (apply lookup_insert_is_Some in Hkey as [<-|[_ Hkey]];
               [first [ exists "pi_sr1"; split; [set_solver|];
                        rewrite Hs1; split; [by eexists|]; by eauto
                      | exists "pi_sr2"; split; [set_solver|];
                        rewrite Hs2; split; [by eexists|]; by eauto
                      | exists "pi_pe"; split; [set_solver|];
                        rewrite Hs3; split; [by eexists|]; by eauto ]|]);
       rewrite lookup_empty in Hkey; by destruct Hkey ]).
Qed.

Lemma global_stats_body_returns stats g site :
  site ∈ scaled_sites →
  (∃ g', global_stats_body stats g site = Ok g') ↔
  (∀ d, stats !! site = Some d → is_Some (d !! "mean") ∧ is_Some (d !! "std")).
Proof.
  intros Hin. split.
  - intros [g' Hg']. apply global_stats_body_ok in Hg'; [|done].
    destruct Hg' as [[Hnone _]|(d & m & s & Hd & Hm & Hs & _)]; intros d' Hd'.
    + congruence.
    + assert (d' = d) as -> by congruence. rewrite Hm, Hs. by split; eexists.
  - intros Hall. destruct (stats !! site) as [d|] eqn:Hd.
    + destruct (Hall d eq_refl) as [[m Hm] [s Hs]]. eexists.
      apply global_stats_body_ok; [done|]. right. by exists d, m, s.
    + exists g. apply global_stats_body_ok; [done|]. by left.
Qed.

(** X7.  [get_global_stats] returns exactly when [pi_rd] is not a key of
    [stats] and each of [pi_sr1], [pi_sr2], [pi_pe] that is a key has both a
    ['mean'] and a ['std'] entry; statistics that hold [pi_rd] never give a
    result. *)
Theorem get_global_stats_returns_iff {Model} stats (model : Model) :
  (∃ g, get_global_stats stats model = Ok g) ↔
  stats !! "pi_rd" = None ∧
  ∀ site d, site ∈ scaled_sites → stats !! site = Some d →
            is_Some (d !! "mean") ∧ is_Some (d !! "std").
Proof.
  split.
  - intros [g (g1 & g2 & H1 & H2 & H3 & Hrd)%get_global_stats_rounds].
    split; [done|]. intros site d Hin. unfold scaled_sites in Hin.
    apply elem_of_cons in Hin as [->|Hin];
      [by apply (global_stats_body_returns stats ∅ "pi_sr1");
          [set_solver | exists g1]|].
    apply elem_of_cons in Hin as [->|Hin];
      [by apply (global_stats_body_returns stats g1 "pi_sr2");
          [set_solver | exists g2]|].
    apply elem_of_cons in Hin as [->|Hin];
      [by apply (global_stats_body_returns stats g2 "pi_pe");
          [set_solver | exists g]|].
    by apply elem_of_nil in Hin.
  - intros [Hrd Hall].
    destruct (proj2 (global_stats_body_returns stats ∅ "pi_sr1"
                       ltac:(set_solver))) as [g1 H1];
      [intros d; apply Hall; set_solver|].
    destruct (proj2 (global_stats_body_returns stats g1 "pi_sr2"
                       ltac:(set_solver))) as [g2 H2];
      [intros d; apply Hall; set_solver|].
    destruct (proj2 (global_stats_body_returns stats g2 "pi_pe"
                       ltac:(set_solver))) as [g H3];
      [intros d; apply Hall; set_solver|].
    exists g. apply get_global_stats_rounds. by exists g1, g2.
Qed.

(** X8.  The list of global sites names [pi_rd] but the table of scales has
    no entry for it: when [pi_rd] is a key of [stats] with a ['mean'] entry
    (and the sites before it are complete), [get_global_stats] raises the
    key-lookup error for [pi_rd]. *)
Theorem get_global_stats_pi_rd {Model} stats (model : Model) d a :
  stats !! "pi_rd" = Some d → d !! "mean" = Some a →
  (∀ site d', site ∈ scaled_sites → stats !! site = Some d' →
              is_Some (d' !! "mean") ∧ is_Some (d' !! "std")) →
  get_global_stats stats model = Raise (KeyError "pi_rd").
Proof.
  intros Hrd Hmean Hall.
  destruct (proj2 (global_stats_body_returns stats ∅ "pi_sr1"
                     ltac:(set_solver))) as [g1 H1];
    [intros d'; apply Hall; set_solver|].
  destruct (proj2 (global_stats_body_returns stats g1 "pi_sr2"
                     ltac:(set_solver))) as [g2 H2];
    [intros d'; apply Hall; set_solver|].
  destruct (proj2 (global_stats_body_returns stats g2 "pi_pe"
                     ltac:(set_solver))) as [g3 H3];
    [intros d'; apply Hall; set_solver|].
  unfold get_global_stats, global_sites. cbn [global_stats_loop].
  rewrite H1. cbn [mbind result_bind]. rewrite H2. cbn [mbind result_bind].
  rewrite H3. cbn [mbind result_bind].
  by rewrite global_stats_body_pi_rd, Hrd, Hmean.
Qed.

Lemma global_stats_body_view stats stats' g site :
  global_view stats site = global_view stats' site →
  global_stats_body stats g site = global_stats_body stats' g site.
Proof.
  unfold global_view, global_stats_body, contains, global_scaled, getitem.
  destruct (stats !! site) as [d|], (stats' !! site) as [d'|]; simpl;
    intros Hview; try done.
  injection Hview as Hm Hs. by rewrite Hm, Hs.
Qed.

Lemma global_stats_loop_view stats stats' sites g :
  Forall (λ site, global_view stats site = global_view stats' site) sites →
  global_stats_loop stats sites g = global_stats_loop stats' sites g.
Proof.
  intros Hall. revert g.
  induction Hall as [|site sites Hsite _ IH]; intros g; simpl; [done|].
  rewrite (global_stats_body_view stats stats' g site Hsite).
  destruct (global_stats_body stats' g site) as [g'|e]; simpl; [apply IH | done].
Qed.

(** X9.  [get_global_stats] reads nothing but the ['mean'] and ['std']
    entries of the four global sites: statistics that agree on them give the
    same result, and the model it is passed has no influence. *)
Theorem get_global_stats_reads_only {Model Model'} stats stats'
    (model : Model) (model' : Model') :
  (∀ site, site ∈ global_sites → global_view stats site = global_view stats' site) →
  get_global_stats stats model = get_global_stats stats' model'.
Proof.
  intros Hview. unfold get_global_stats.
  apply global_stats_loop_view. by apply Forall_forall.
Qed.

End GlobalStats.

(** The summary of statistics that hold [pi_sr1] and [pi_pe]. *)
Lemma get_global_stats_result_witness :
  global_example !! "pi_rd" = None ∧
  global_summary !! "pi_sr1_mean" = Some (nd_scale (Scalar 0.5) 1) ∧
  global_summary !! "pi_sr2_mean" = None.
Proof.
  destruct (get_global_stats_result global_example tt global_summary)
    as (Hrd & Hsites & _); [reflexivity|].
  split; [exact Hrd|].
  pose proof (Hsites "pi_sr1" ltac:(repeat constructor)) as H1.
  pose proof (Hsites "pi_sr2" ltac:(repeat constructor)) as H2.
  change (global_example !! "pi_sr1")
    with (Some (list_to_map [("mean", Scalar 0.5); ("std", Scalar 0.125)]%float
                : gmap string ndarray)) in H1.
  change (global_example !! "pi_sr2") with (@None (gmap string ndarray)) in H2.
  destruct H1 as (m & s & Hm & _ & H1 & _). destruct H2 as [H2 _].
  change (Some (Scalar 0.5) = Some m) in Hm. injection Hm as <-.
  split; [exact H1 | exact H2].
Defined.

(** The same statistics with a summary of [pi_rd] added. *)
Lemma get_global_stats_pi_rd_witness :
  get_global_stats (<["pi_rd" := pi_summary]> global_example) tt
  = Raise (KeyError "pi_rd").
Proof.
  apply (get_global_stats_pi_rd _ tt pi_summary (Scalar 0.5)).
  - reflexivity.
  - reflexivity.
  - intros site d' Hin. unfold scaled_sites in Hin.
    apply elem_of_cons in Hin as [->|Hin].
    { change (Some pi_summary = Some d' →
              is_Some (d' !! "mean") ∧ is_Some (d' !! "std")).
      intros [= <-]. split; eexists; reflexivity. }
    apply elem_of_cons in Hin as [->|Hin].
    { change (@None (gmap string ndarray) = Some d' →
              is_Some (d' !! "mean") ∧ is_Some (d' !! "std")).
      discriminate. }
    apply elem_of_cons in Hin as [->|Hin].
    { change (Some (list_to_map [("mean", Scalar 0.25); ("std", Scalar 0.0625)]%float
                    : gmap string ndarray) = Some d' →
              is_Some (d' !! "mean") ∧ is_Some (d' !! "std")).
      intros [= <-]. split; eexists; reflexivity. }
    by apply elem_of_nil in Hin.
Defined.

(** Statistics with [z] taken out and another model give the same summary. *)
Lemma get_global_stats_reads_only_witness :
  get_global_stats (delete "z" global_example) 0
  = get_global_stats global_example tt.
Proof.
  apply (get_global_stats_reads_only (delete "z" global_example) global_example
           0 tt).
  intros site Hin. unfold global_sites in Hin.
  repeat (apply elem_of_cons in Hin as [->|Hin]; [reflexivity|]).
  by apply elem_of_nil in Hin.
Defined.

(** * Properties of the discrete summary *)

Section DiscreteStatsProperties.
Context {samples_array : Type} (posterior_mean : samples_array → result ndarray).

Implicit Types (samples : gmap string samples_array)
  (acc : gmap string (gmap string ndarray)).

(** The loop returns when each key has samples that reduce, and then
    stores one ['mean'] entry under each key. *)
Lemma discrete_stats_loop_ok samples keys acc r :
  discrete_stats_loop posterior_mean samples keys acc = Ok r ↔
  ∃ means,
    Forall2 (λ key m, ∃ a, samples !! key = Some a ∧ posterior_mean a = Ok m)
            keys means ∧
    r = foldl (λ acc' km, <[km.1 := {[ "mean" := km.2 ]}]> acc') acc
              (zip keys means).
Proof.
  revert acc r. induction keys as [|key keys IH]; intros acc r; simpl.
  - split.
    + intros [= <-]. exists []. by split; [constructor|].
    + intros (means & Hm & ->). by inversion Hm.
  - unfold getitem. split.
    + destruct (samples !! key) as [a|] eqn:Ha; [simpl | done].
      destruct (posterior_mean a) as [m|e] eqn:Hmean; [simpl | done].
      intros (means & Hm & ->)%IH. exists (m :: means). split; [|done].
      constructor; [by exists a | done].
    + intros (means & Hm & ->).
      inversion Hm as [|? m ? means' (a & Ha & Hmean) Hrest]; subst.
      rewrite Ha. simpl. rewrite Hmean. simpl. apply IH. by exists means'.
Qed.

(** X10.  [get_discrete_stats] returns exactly when [samples] has [m_pe],
    [m_sr1] and [m_sr2] and each reduces; its result then has these three
    keys and no other, each with the single entry ['mean'] that holds the
    reduction of the site's samples.  Other keys of [samples], such as [z],
    are left out. *)
Theorem get_discrete_stats_result samples r :
  get_discrete_stats posterior_mean samples = Ok r ↔
  ∃ a1 a2 a3 m1 m2 m3,
    samples !! "m_pe" = Some a1 ∧ posterior_mean a1 = Ok m1 ∧
    samples !! "m_sr1" = Some a2 ∧ posterior_mean a2 = Ok m2 ∧
    samples !! "m_sr2" = Some a3 ∧ posterior_mean a3 = Ok m3 ∧
    r = <["m_sr2" := {[ "mean" := m3 ]}]>
          (<["m_sr1" := {[ "mean" := m2 ]}]>
             (<["m_pe" := {[ "mean" := m1 ]}]> ∅)).
Proof.
  unfold get_discrete_stats, discrete_sites. rewrite discrete_stats_loop_ok.
  split.
  - intros (means & Hm & ->).
    inversion Hm as [|? m1 ? ms1 (a1 & Ha1 & Hm1) Hr1]; subst.
    inversion Hr1 as [|? m2 ? ms2 (a2 & Ha2 & Hm2) Hr2]; subst.
    inversion Hr2 as [|? m3 ? ms3 (a3 & Ha3 & Hm3) Hr3]; subst.
    inversion Hr3; subst. by exists a1, a2, a3, m1, m2, m3.
  - intros (a1 & a2 & a3 & m1 & m2 & m3 & Ha1 & Hm1 & Ha2 & Hm2 & Ha3 & Hm3 & ->).
    exists [m1; m2; m3]. split; [|done].
    repeat constructor; eauto.
Qed.

(** X11.  None of the three membership sites is optional for
    [get_discrete_stats]: when the sites before [key] in its list have
    samples that reduce and [key] is not in [samples], it raises the
    key-lookup error for [key]; without [m_pe] it always raises the one for
    [m_pe]. *)
Theorem get_discrete_stats_missing samples before key after :
  discrete_sites = before ++ key :: after →
  Forall (λ k, ∃ a m, samples !! k = Some a ∧ posterior_mean a = Ok m) before →
  samples !! key = None →
  get_discrete_stats posterior_mean samples = Raise (KeyError key).
Proof.
  intros Hsplit Hbefore Hnone. unfold get_discrete_stats. rewrite Hsplit.
  clear Hsplit. generalize (∅ : gmap string (gmap string ndarray)).
  induction Hbefore as [|k before (a & m & Ha & Hm) _ IH]; intros acc; simpl.
  - unfold getitem. by rewrite Hnone.
  - unfold getitem. rewrite Ha. simpl. rewrite Hm. simpl. apply IH.
Qed.

End DiscreteStatsProperties.

(** The summary of samples of the three sites and of [z]. *)
Lemma get_discrete_stats_result_witness :
  get_discrete_stats first_sample discrete_samples
  = Ok (<["m_sr2" := {[ "mean" := Scalar 1 ]}]>
          (<["m_sr1" := {[ "mean" := Scalar 0 ]}]>
             (<["m_pe" := {[ "mean" := Scalar 1 ]}]> ∅))).
Proof.
  apply (get_discrete_stats_result first_sample discrete_samples).
  exists (NDArray [Scalar 1; Scalar 0]), (NDArray [Scalar 0; Scalar 0]),
    (NDArray [Scalar 1; Scalar 1]), (Scalar 1), (Scalar 0), (Scalar 1).
  repeat split; reflexivity.
Defined.

(** The same samples without [m_sr1]. *)
Lemma get_discrete_stats_missing_witness :
  get_discrete_stats first_sample (delete "m_sr1" discrete_samples)
  = Raise (KeyError "m_sr1").
Proof.
  apply (get_discrete_stats_missing first_sample
           (delete "m_sr1" discrete_samples) ["m_pe"] "m_sr1" ["m_sr2"]).
  - reflexivity.
  - constructor; [|constructor].
    exists (NDArray [Scalar 1; Scalar 0]), (Scalar 1). split; reflexivity.
  - reflexivity.
Defined.

(** * Further properties of the loaders and of the driver *)

Section DriverMore.
Context `{Collaborators}.

Implicit Types (w : world) (args : gmap string pyval).

(** X12.  A call of [load_param_store] that fails (an unknown device, no
    file, a file that does not unpickle) leaves the registry empty: the
    parameters that were there are gone, and no file is touched. *)
Theorem load_param_store_failure base_path device_name w e w' :
  load_param_store base_path device_name w = (Raise e, w') →
  registry (libs w') = ∅ ∧ files w' = files w.
Proof.
  unfold load_param_store, param_store_load, pyro_clear_param_store, bind,
    record_call, set_registry, set_libs, lift, open_read, get_libs.
  cbn. destruct (torch_device device_name) as [dev|e1]; cbn;
    [|by intros [= _ <-]].
  destruct (files w !! (base_path +:+ ".param_store.pyro")) as [[content|]|];
    cbn; try by intros [= _ <-].
  destruct (torch_load_impl content dev) as [loaded|e2]; cbn;
    [done | by intros [= _ <-]].
Qed.

(** *** Runs that return *)

Lemma bind_inv {A B} (c : M A) (k : A → M B) w b w' :
  bind c k w = (Ok b, w') → ∃ a w1, c w = (Ok a, w1) ∧ k a w1 = (Ok b, w').
Proof.
  unfold bind. destruct (c w) as [[a|e] w1]; [|done]. intros Hk. by exists a, w1.
Qed.

Lemma steps_trans w cs w1 cs' w2 :
  steps w cs w1 → steps w1 cs' w2 → steps w (cs ++ cs') w2.
Proof.
  intros [Hc Hf] [Hc' Hf']. split; [|congruence].
  by rewrite Hc', Hc, <- app_assoc.
Qed.

Lemma lift_inv {A} (r : result A) w a w1 :
  lift r w = (Ok a, w1) → r = Ok a ∧ w1 = w.
Proof. unfold lift. by intros [= -> ->]. Qed.

Lemma getitem_inv {V} (d : gmap string V) k v :
  getitem d k = Ok v → d !! k = Some v.
Proof. unfold getitem. destruct (d !! k); by intros [= ->]. Qed.

Lemma logging_basicConfig_inv lv w a w1 :
  logging_basicConfig lv w = (Ok a, w1) → steps w [] w1.
Proof.
  unfold logging_basicConfig. intros [= _ <-]. split; simpl; [|done].
  by rewrite app_nil_r.
Qed.

Lemma enable_validation_inv b w a w1 :
  pyro_enable_validation b w = (Ok a, w1) → steps w [] w1.
Proof.
  unfold pyro_enable_validation, set_libs. intros [= _ <-]. split; simpl; [|done].
  by rewrite app_nil_r.
Qed.

Lemma distributions_enable_validation_inv b w a w1 :
  pyro_distributions_enable_validation b w = (Ok a, w1) → steps w [] w1.
Proof.
  unfold pyro_distributions_enable_validation, set_libs. intros [= _ <-].
  split; simpl; [|done]. by rewrite app_nil_r.
Qed.

Lemma clear_param_store_inv w a w1 :
  pyro_clear_param_store w = (Ok a, w1) → steps w [CallClearParamStore] w1.
Proof.
  unfold pyro_clear_param_store, bind, record_call, set_registry, set_libs.
  cbn. by intros [= _ <-].
Qed.

Lemma np_random_seed_inv seed w a w1 :
  np_random_seed seed w = (Ok a, w1) → steps w [CallSeedNumpy seed] w1.
Proof.
  unfold np_random_seed, bind, record_call, lift, set_libs. cbn.
  destruct (np_seeded seed); [|done]. by intros [= _ <-].
Qed.

Lemma torch_random_manual_seed_inv seed w a w1 :
  torch_random_manual_seed seed w = (Ok a, w1) → steps w [CallSeedTorch seed] w1.
Proof.
  unfold torch_random_manual_seed, bind, record_call, lift, set_libs. cbn.
  destruct (torch_seeded seed); [|done]. by intros [= _ <-].
Qed.

Lemma pyro_set_rng_seed_inv seed w a w1 :
  pyro_set_rng_seed seed w = (Ok a, w1) → steps w [CallSeedPyro seed] w1.
Proof.
  unfold pyro_set_rng_seed, bind, record_call, lift, set_libs. cbn.
  destruct (pyro_seeded seed); [|done]. by intros [= _ <-].
Qed.

Lemma load_model_inv base_path w params w1 :
  load_model base_path w = (Ok params, w1) →
  steps w [] w1 ∧
  (is_none params = false →
   ∃ content, files w !! (base_path +:+ ".vars.json") = Some (File content) ∧
              json_load content = Ok params).
Proof.
  unfold load_model, bind, os_path_exists, contains, open_read, lift,
    logging_warning, ret. cbv zeta.
  destruct (files w !! (base_path +:+ ".vars.json")) as [[content|]|] eqn:Hfile;
    cbn; rewrite ?Hfile; cbn.
  - intros [= Hjson <-]. split; [split; [by rewrite app_nil_r | done]|].
    intros _. by exists content.
  - done.
  - intros [= <- <-]. split; [split; simpl; [by rewrite app_nil_r | done]|].
    done.
Qed.

Lemma new_model_inv cfg w m w1 :
  SVGenotyperPyroModel cfg w = (Ok m, w1) → steps w [CallNewModel] w1.
Proof.
  unfold SVGenotyperPyroModel, bind, record_call, call_libs. cbn.
  destruct (model_init_impl cfg (libs w)) as [[m'|e] rt]; [|done].
  by intros [= _ <-].
Qed.

Lemma load_param_store_inv base_path device_name w a w1 :
  load_param_store base_path device_name w = (Ok a, w1) →
  ∃ dev, torch_device device_name = Ok dev ∧
    steps w [CallClearParamStore;
             CallParamStoreLoad (base_path +:+ ".param_store.pyro") dev] w1.
Proof.
  unfold load_param_store, param_store_load, pyro_clear_param_store, bind,
    record_call, set_registry, set_libs, lift, open_read, get_libs.
  cbn. destruct (torch_device device_name) as [dev|e1]; cbn; [|done].
  destruct (files w !! (base_path +:+ ".param_store.pyro")) as [[content|]|];
    cbn; try done.
  destruct (torch_load_impl content dev) as [loaded|e2]; cbn; [|done].
  intros [= _ <-]. exists dev. split; [done|]. split; simpl; [|done].
  by rewrite <- app_assoc.
Qed.

Lemma io_load_list_inv path w vids w1 :
  io_load_list path w = (Ok vids, w1) →
  steps w [CallLoadList path] w1 ∧ load_list_impl (files w) path = Ok vids.
Proof.
  unfold io_load_list, bind, record_call, get_files, lift. cbn.
  by intros [= -> <-].
Qed.

Lemma io_load_tensors_inv base_path sv dt device_name w d w1 :
  io_load_tensors base_path sv dt device_name w = (Ok d, w1) →
  steps w [CallLoadTensors base_path] w1.
Proof.
  unfold io_load_tensors, bind, record_call, get_files, lift. cbn.
  by intros [= _ <-].
Qed.

Lemma run_predictive_inv mdl d n_samples n_iter w posterior w1 :
  model_run_predictive mdl d n_samples n_iter w = (Ok posterior, w1) →
  steps w [CallRunPredictive (registry (libs w))] w1.
Proof.
  unfold model_run_predictive, bind, get_libs, record_call, call_libs. cbn.
  destruct (run_predictive_impl mdl d n_samples n_iter (libs w))
    as [[p|e] rt]; [|done].
  by intros [= _ <-].
Qed.

Lemma run_discrete_inv mdl d sv n_states log_freq n_samples w posterior w1 :
  model_run_discrete mdl d sv n_states log_freq n_samples w = (Ok posterior, w1) →
  steps w [CallRunDiscrete (registry (libs w))] w1.
Proof.
  unfold model_run_discrete, bind, get_libs, record_call, call_libs. cbn.
  destruct (run_discrete_impl mdl d sv n_states log_freq n_samples (libs w))
    as [[p|e] rt]; [|done].
  by intros [= _ <-].
Qed.

Lemma io_write_variant_output_inv path output w a w1 :
  io_write_variant_output path output w = (Ok a, w1) →
  calls w1 = calls w ++ [CallWriteOutput path output] ∧
  write_variant_output_impl path output (files w) = Ok (files w1).
Proof.
  unfold io_write_variant_output, bind, record_call, get_files, lift, set_files.
  cbn. destruct (write_variant_output_impl path output (files w)) as [fs|e];
    [|done].
  by intros [= _ <-].
Qed.

Lemma get_output_vids vids stats params out :
  get_output vids stats params = Ok out → vid <$> out = vids.
Proof.
  intros Hout. pose proof (get_output_length _ _ _ _ Hout) as Hlen.
  apply list_eq. intros i. rewrite list_lookup_fmap.
  destruct (out !! i) as [r|] eqn:Hr; simpl.
  - apply (get_output_lookup _ _ _ _ _ _ Hout) in Hr.
    apply get_output_body_ok in Hr as [Hvid _]. done.
  - symmetry. apply lookup_ge_None. apply lookup_ge_None in Hr. lia.
Qed.

Ltac run_step Hrun Hstep :=
  let a := fresh "a" in
  let w1 := fresh "w" in
  apply bind_inv in Hrun as (a & w1 & Hstep & Hrun).

Ltac run_lift Hrun Heq :=
  let a := fresh "a" in
  let w1 := fresh "w" in
  let Hstep := fresh "Hstep" in
  apply bind_inv in Hrun as (a & w1 & Hstep & Hrun);
  apply lift_inv in Hstep as [Heq ->].

(** X13.  What a call of [run] that returns has done: it has read the
    seed, the model directory and name, the device and the output path
    from [args]; of the calls that the trace records (the clears of the
    registry, the seedings, the constructor of the model, the load of the
    parameter store, the loaders of [io], the two inference calls and
    [write_variant_output]; not logging, the validation switches,
    [os.path], [open], [json.load], [torch.device] or [dict.update]) it has
    made these twelve and no other, in the order of the source, the three
    generators seeded with the same seed, the parameter store and the list
    of variants read from the base path; the records it returns carry, in
    order, the variant ids of the list file; and the files are those of the
    start with these same records written to [args['output']]. *)
Theorem run_returns args default_dtype w out w' :
  run args default_dtype w = (Ok out, w') →
  ∃ seed model_dir model_name base_path device_name dev output_path reg reg',
    args !! "random_seed" = Some seed ∧
    args !! "model_dir" = Some model_dir ∧
    args !! "model_name" = Some model_name ∧
    os_path_join model_dir model_name = Ok base_path ∧
    args !! "device" = Some device_name ∧
    torch_device device_name = Ok dev ∧
    args !! "output" = Some output_path ∧
    calls w' = calls w ++
      [CallClearParamStore; CallSeedNumpy seed; CallSeedTorch seed;
       CallSeedPyro seed; CallNewModel; CallClearParamStore;
       CallParamStoreLoad (base_path +:+ ".param_store.pyro") dev;
       CallLoadList (base_path +:+ ".vids.list"); CallLoadTensors base_path;
       CallRunPredictive reg; CallRunDiscrete reg';
       CallWriteOutput output_path out] ∧
    load_list_impl (files w) (base_path +:+ ".vids.list") = Ok (vid <$> out) ∧
    write_variant_output_impl output_path out (files w) = Ok (files w').
Proof.
  unfold run. intros Hrun.
  run_step Hrun Hs. apply logging_basicConfig_inv in Hs. rename Hs into S1.
  run_step Hrun Hs. apply enable_validation_inv in Hs. rename Hs into S2.
  run_step Hrun Hs. apply distributions_enable_validation_inv in Hs. rename Hs into S3.
  run_step Hrun Hs. apply clear_param_store_inv in Hs. rename Hs into S4.
  run_lift Hrun Hseed1. apply getitem_inv in Hseed1.
  run_step Hrun Hs. apply np_random_seed_inv in Hs. rename Hs into S5.
  run_lift Hrun Hseed2. apply getitem_inv in Hseed2.
  run_step Hrun Hs. apply torch_random_manual_seed_inv in Hs. rename Hs into S6.
  run_lift Hrun Hseed3. apply getitem_inv in Hseed3.
  run_step Hrun Hs. apply pyro_set_rng_seed_inv in Hs. rename Hs into S7.
  run_lift Hrun Hsvname. run_lift Hrun Hsv.
  run_lift Hrun Hdir. apply getitem_inv in Hdir.
  run_lift Hrun Hname. apply getitem_inv in Hname.
  run_lift Hrun Hbase.
  run_step Hrun Hs. apply load_model_inv in Hs. destruct Hs as [S8 _].
  match type of Hrun with context [is_none ?p] => destruct (is_none p) end;
    [done|].
  do 8 (let Heq := fresh "Hparam" in run_lift Hrun Heq).
  run_lift Hrun Hdev1. apply getitem_inv in Hdev1.
  run_lift Hrun Hloss.
  run_step Hrun Hs. apply new_model_inv in Hs. rename Hs into S9.
  run_lift Hrun Hdev2. apply getitem_inv in Hdev2.
  run_step Hrun Hs. apply load_param_store_inv in Hs. destruct Hs as (dev & Hdev & S10).
  run_step Hrun Hs. apply io_load_list_inv in Hs. destruct Hs as [S11 Hlist].
  run_lift Hrun Hdev3.
  run_step Hrun Hs. apply io_load_tensors_inv in Hs. rename Hs into S12.
  run_lift Hrun Hn1. run_lift Hrun Hn2.
  run_step Hrun Hs. apply run_predictive_inv in Hs. rename Hs into S13.
  run_lift Hrun Hn3. run_lift Hrun Hn4.
  run_step Hrun Hs. apply run_discrete_inv in Hs. rename Hs into S14.
  cbv zeta in Hrun.
  run_lift Hrun Hmembers. run_lift Hrun Hout.
  run_lift Hrun Hpath. apply getitem_inv in Hpath.
  run_step Hrun Hs. apply io_write_variant_output_inv in Hs. destruct Hs as [Hcalls Hwrite].
  injection Hrun as -> ->.
  apply get_output_vids in Hout. subst.
  repeat match goal with
         | Ha : args !! ?k = Some ?x, Hb : args !! ?k = Some ?y |- _ =>
             assert (y = x) as -> by congruence; clear Hb
         end.
  pose proof (steps_trans _ _ _ _ _ S1 (steps_trans _ _ _ _ _ S2
    (steps_trans _ _ _ _ _ S3 (steps_trans _ _ _ _ _ S4
    (steps_trans _ _ _ _ _ S5 (steps_trans _ _ _ _ _ S6
    (steps_trans _ _ _ _ _ S7 (steps_trans _ _ _ _ _ S8
    (steps_trans _ _ _ _ _ S9 (steps_trans _ _ _ _ _ S10
    (steps_trans _ _ _ _ _ S11 (steps_trans _ _ _ _ _ S12
    (steps_trans _ _ _ _ _ S13 S14))))))))))))) as [Hc Hf].
  simpl in Hc.
  repeat match goal with S : steps _ _ _ |- _ => destruct S as [_ ?] end.
  eexists _, _, _, _, _, _, _, _, _.
  repeat split; try eassumption.
  - rewrite Hcalls, Hc, <- app_assoc. reflexivity.
  - rewrite <- Hlist. f_equal. congruence.
  - rewrite <- Hwrite. f_equal. congruence.
Qed.

(** *** The order of the calls *)

Lemma emits_bind {A B} (c : M A) (k : A → M B) ops ops' :
  emits c ops → (∀ a, emits (k a) ops') → emits (bind c k) (ops ++ ops').
Proof.
  intros Hc Hk w. unfold bind.
  destruct (Hc w) as (cs & Hcalls & Hpre & Hok).
  destruct (c w) as [[a|e] w1]; simpl in *.
  - destruct (Hk a w1) as (cs' & Hcalls' & Hpre' & Hok').
    exists (cs ++ cs'). rewrite Hcalls', Hcalls, <- app_assoc, fmap_app.
    rewrite (Hok eq_refl). split; [done|]. split.
    + by apply prefix_app.
    + intros Hyes. by rewrite (Hok' Hyes).
  - exists cs. split; [done|]. split; [|done]. by apply prefix_app_r.
Qed.

Lemma emits_nothing {A} (c : M A) :
  (∀ w, calls (c w).2 = calls w) → emits c [].
Proof.
  intros Hc w. exists []. rewrite Hc, app_nil_r. done.
Qed.

Lemma emits_raise {A} e ops : emits (raise (A := A) e) ops.
Proof.
  intros w. exists []. simpl. rewrite app_nil_r. split; [done|].
  split; [apply prefix_nil | done].
Qed.

Lemma emits_lift {A} (r : result A) : emits (lift r) [].
Proof. by apply emits_nothing. Qed.

Lemma emits_ret {A} (a : A) : emits (ret a) [].
Proof. by apply emits_nothing. Qed.

Lemma emits_record_call c op :
  operation_of c = op → emits (record_call c) [op].
Proof. intros <- w. exists [c]. done. Qed.

Lemma emits_call_libs {A}
    (f : runtime payload device generator →
         result A * runtime payload device generator) :
  emits (call_libs f) [].
Proof.
  apply emits_nothing. intros w. unfold call_libs. by destruct (f (libs w)).
Qed.

Lemma emits_open_read path : emits (open_read path) [].
Proof.
  apply emits_nothing. intros w. unfold open_read.
  by destruct (files w !! path) as [[|]|].
Qed.

Lemma emits_eq {A} (c : M A) ops ops' : emits c ops → ops = ops' → emits c ops'.
Proof. by intros ? <-. Qed.

Ltac emits_step :=
  first
    [ eapply emits_bind; [|intros ?]
    | apply emits_lift | apply emits_ret
    | eapply emits_record_call; simpl; reflexivity
    | apply emits_call_libs | apply emits_open_read
    | by apply emits_nothing ].

Ltac emits_go ops := eapply (emits_eq _ _ ops); [repeat emits_step | reflexivity].

Lemma emits_clear_param_store :
  emits pyro_clear_param_store [OpClearParamStore].
Proof. unfold pyro_clear_param_store. emits_go [OpClearParamStore]. Qed.

Lemma emits_np_random_seed seed : emits (np_random_seed seed) [OpSeedNumpy].
Proof. unfold np_random_seed. emits_go [OpSeedNumpy]. Qed.

Lemma emits_torch_random_manual_seed seed :
  emits (torch_random_manual_seed seed) [OpSeedTorch].
Proof. unfold torch_random_manual_seed. emits_go [OpSeedTorch]. Qed.

Lemma emits_pyro_set_rng_seed seed : emits (pyro_set_rng_seed seed) [OpSeedPyro].
Proof. unfold pyro_set_rng_seed. emits_go [OpSeedPyro]. Qed.

Lemma emits_load_model base_path : emits (load_model base_path) [].
Proof.
  apply emits_nothing. intros w.
  unfold load_model, bind, os_path_exists, open_read, lift, logging_warning, ret.
  cbv zeta. simpl.
  destruct (contains _ (files w)); simpl; [|done].
  by destruct (files w !! _) as [[|]|].
Qed.

Lemma emits_new_model cfg : emits (SVGenotyperPyroModel cfg) [OpNewModel].
Proof. unfold SVGenotyperPyroModel. emits_go [OpNewModel]. Qed.

Lemma emits_load_param_store base_path device_name :
  emits (load_param_store base_path device_name)
    [OpClearParamStore; OpParamStoreLoad].
Proof.
  unfold load_param_store, param_store_load, pyro_clear_param_store.
  emits_go [OpClearParamStore; OpParamStoreLoad].
Qed.

Lemma emits_io_load_list path : emits (io_load_list path) [OpLoadList].
Proof. unfold io_load_list. emits_go [OpLoadList]. Qed.

Lemma emits_io_load_tensors base_path sv dt device_name :
  emits (io_load_tensors base_path sv dt device_name) [OpLoadTensors].
Proof. unfold io_load_tensors. emits_go [OpLoadTensors]. Qed.

Lemma emits_run_predictive mdl d n_samples n_iter :
  emits (model_run_predictive mdl d n_samples n_iter) [OpRunPredictive].
Proof. unfold model_run_predictive. emits_go [OpRunPredictive]. Qed.

Lemma emits_run_discrete mdl d sv n_states log_freq n_samples :
  emits (model_run_discrete mdl d sv n_states log_freq n_samples)
    [OpRunDiscrete].
Proof. unfold model_run_discrete. emits_go [OpRunDiscrete]. Qed.

Lemma emits_write_variant_output path output :
  emits (io_write_variant_output path output) [OpWriteOutput].
Proof. unfold io_write_variant_output. emits_go [OpWriteOutput]. Qed.

Ltac emits_run_step :=
  first
    [ apply emits_clear_param_store | apply emits_np_random_seed
    | apply emits_torch_random_manual_seed | apply emits_pyro_set_rng_seed
    | apply emits_load_model | apply emits_new_model
    | apply emits_load_param_store | apply emits_io_load_list
    | apply emits_io_load_tensors | apply emits_run_predictive
    | apply emits_run_discrete | apply emits_write_variant_output
    | apply emits_lift | apply emits_ret
    | by apply emits_nothing
    | eapply emits_bind; [|intros ?] ].

Lemma emits_run args default_dtype :
  emits (run args default_dtype) run_operations.
Proof.
  unfold run.
  eapply (emits_eq _ _ run_operations).
  - repeat emits_run_step.
    match goal with |- emits (if ?b then _ else _) _ => destruct b end.
    + apply (emits_raise _
        [OpNewModel; OpClearParamStore; OpParamStoreLoad; OpLoadList;
         OpLoadTensors; OpRunPredictive; OpRunDiscrete; OpWriteOutput]).
    + eapply (emits_eq _ _
        [OpNewModel; OpClearParamStore; OpParamStoreLoad; OpLoadList;
         OpLoadTensors; OpRunPredictive; OpRunDiscrete; OpWriteOutput]);
        [repeat emits_run_step | reflexivity].
  - reflexivity.
Qed.

(** X14.  Whatever its arguments and the files, [run] makes its library
    calls in one fixed order: clear the registry, seed numpy, torch and
    pyro, build the model, clear the registry, load the parameter store,
    load the list of variants, load the tensors, predictive inference,
    discrete inference, write the output.  A call that raises has made the
    first of these calls only, up to the one that failed; a call that
    returns has made all twelve.  So nothing is written before both
    inference calls, and no inference runs before the parameter store has
    been loaded. *)
Theorem run_call_order args default_dtype w :
  ∃ cs, calls (run args default_dtype w).2 = calls w ++ cs ∧
        (operation_of <$> cs) `prefix_of` run_operations ∧
        (is_ok (run args default_dtype w).1 = true →
         operation_of <$> cs = run_operations).
Proof. apply emits_run. Qed.

(** *** Runs that stop early *)

(** X15.  A hyperparameter file that exists and holds the JSON value
    [null] is taken for a missing one: [json.load] returns [None], and
    [run] raises [Model at not found: <base_path>] as it does when there is
    no file, this time without a warning in the log.  Nothing but the
    clear and the three seedings has been called. *)
Theorem run_null_model args default_dtype w seed g1 g2 g3 name sv dir file
    base_path content :
  args !! "random_seed" = Some seed →
  np_seeded seed = Ok g1 → torch_seeded seed = Ok g2 → pyro_seeded seed = Ok g3 →
  args !! "svtype" = Some name → SVTypes_getitem name = Ok sv →
  args !! "model_dir" = Some dir → args !! "model_name" = Some file →
  os_path_join dir file = Ok base_path →
  files w !! (base_path +:+ ".vars.json") = Some (File content) →
  json_load content = Ok (JScalar PyNone) →
  ∃ w', run args default_dtype w
        = (Raise (RuntimeError ("Model at not found: " +:+ base_path)), w') ∧
        files w' = files w ∧
        calls w' = calls w ++ [CallClearParamStore; CallSeedNumpy seed;
                               CallSeedTorch seed; CallSeedPyro seed] ∧
        log w' = log w.
Proof.
  intros Hseed Hg1 Hg2 Hg3 Hname Hsv Hdir Hfile Hjoin Hsome Hjson.
  assert (getitem args "random_seed" = Ok seed) as Hseed'
    by (unfold getitem; by rewrite Hseed).
  assert (getitem args "svtype" = Ok name) as Hname'
    by (unfold getitem; by rewrite Hname).
  assert (getitem args "model_dir" = Ok dir) as Hdir'
    by (unfold getitem; by rewrite Hdir).
  assert (getitem args "model_name" = Ok file) as Hfile'
    by (unfold getitem; by rewrite Hfile).
  eexists. split.
  - unfold run.
    do 4 (eapply bind_step; [reflexivity|]).
    eapply bind_step; [by rewrite Hseed'|].
    eapply bind_step;
      [unfold np_random_seed, bind, lift; cbn; by rewrite Hg1|].
    eapply bind_step; [by rewrite Hseed'|].
    eapply bind_step;
      [unfold torch_random_manual_seed, bind, lift; cbn; by rewrite Hg2|].
    eapply bind_step; [by rewrite Hseed'|].
    eapply bind_step;
      [unfold pyro_set_rng_seed, bind, lift; cbn; by rewrite Hg3|].
    eapply bind_step; [by rewrite Hname'|].
    eapply bind_step; [by rewrite Hsv|].
    eapply bind_step; [by rewrite Hdir'|].
    eapply bind_step; [by rewrite Hfile'|].
    eapply bind_step; [by rewrite Hjoin|].
    eapply bind_step.
    { unfold load_model, bind, os_path_exists, contains, open_read, lift. cbn.
      rewrite Hsome. cbn. rewrite Hsome, Hjson. reflexivity. }
    reflexivity.
  - cbn. split; [done|]. rewrite <- !app_assoc. by cbn.
Qed.

(** X16.  Without the key ['random_seed'] in [args], [run] raises the key
    error of the first lookup of line 21.  By then it has switched both
    validations on and cleared the registry: a failed call has emptied the
    registry of the process, and has seeded no generator. *)
Theorem run_missing_seed args default_dtype w :
  args !! "random_seed" = None →
  ∃ w', run args default_dtype w = (Raise (KeyError "random_seed"), w') ∧
        registry (libs w') = ∅ ∧
        validation (libs w') = true ∧ dist_validation (libs w') = true ∧
        np_rng (libs w') = np_rng (libs w) ∧
        torch_rng (libs w') = torch_rng (libs w) ∧
        pyro_rng (libs w') = pyro_rng (libs w) ∧
        calls w' = calls w ++ [CallClearParamStore] ∧
        files w' = files w.
Proof.
  intros Hnone. eexists. split.
  - unfold run.
    do 4 (eapply bind_step; [reflexivity|]).
    unfold bind at 1, lift, getitem. rewrite Hnone. reflexivity.
  - cbn. done.
Qed.

End DriverMore.

(** A run on the trained model [models/m] in a fresh process returns the
    two records of the scenario, and has done what [run_returns] says. *)
Lemma run_returns_witness :
  let w := fresh_world model_files in
  let w' := (run stub_args torch_float32 w).2 in
  run stub_args torch_float32 w = (Ok scenario_output, w') ∧
  ∃ seed model_dir model_name base_path device_name dev output_path reg reg',
    stub_args !! "random_seed" = Some seed ∧
    stub_args !! "model_dir" = Some model_dir ∧
    stub_args !! "model_name" = Some model_name ∧
    os_path_join model_dir model_name = Ok base_path ∧
    stub_args !! "device" = Some device_name ∧
    torch_device device_name = Ok dev ∧
    stub_args !! "output" = Some output_path ∧
    calls w' = calls w ++
      [CallClearParamStore; CallSeedNumpy seed; CallSeedTorch seed;
       CallSeedPyro seed; CallNewModel; CallClearParamStore;
       CallParamStoreLoad (base_path +:+ ".param_store.pyro") dev;
       CallLoadList (base_path +:+ ".vids.list"); CallLoadTensors base_path;
       CallRunPredictive reg; CallRunDiscrete reg';
       CallWriteOutput output_path scenario_output] ∧
    load_list_impl (files w) (base_path +:+ ".vids.list")
    = Ok (vid <$> scenario_output) ∧
    write_variant_output_impl output_path scenario_output (files w)
    = Ok (files w').
Proof.
  intros w w'. subst w'.
  destruct (run stub_args torch_float32 w) as [r w'] eqn:Hr.
  change (r, w').2 with w'.
  assert (r = Ok scenario_output) as ->.
  { transitivity (run stub_args torch_float32 w).1; [rewrite Hr|]; reflexivity. }
  split; [reflexivity|].
  exact (run_returns stub_args torch_float32 w scenario_output w' Hr).
Defined.

(** A call of the loader on a model without parameter-store file, in a
    process whose registry holds an entry of an earlier run. *)
Lemma load_param_store_failure_witness :
  let w := used_world (<["models/m.vars.json" := File "{}"]> ∅) in
  let w' := (load_param_store "models/m" (PyStr "cpu") w).2 in
  load_param_store "models/m" (PyStr "cpu") w
  = (Raise (LibraryError "FileNotFoundError"), w') ∧
  registry (libs w') = ∅ ∧ files w' = files w.
Proof.
  intros w w'. subst w'.
  destruct (load_param_store "models/m" (PyStr "cpu") w) as [r w'] eqn:Hr.
  change (r, w').2 with w'.
  assert (r = Raise (LibraryError "FileNotFoundError")) as ->.
  { transitivity (load_param_store "models/m" (PyStr "cpu") w).1;
      [rewrite Hr|]; reflexivity. }
  split; [reflexivity|].
  exact (load_param_store_failure "models/m" (PyStr "cpu") w _ w' Hr).
Defined.


(** A model whose hyperparameter file holds [null]. *)
Lemma run_null_model_witness :
  ∃ w', run stub_args torch_float32
          (fresh_world (<["models/m.vars.json" := File "null"]> ∅))
        = (Raise (RuntimeError "Model at not found: models/m"), w') ∧
        calls w' = [CallClearParamStore; CallSeedNumpy (PyInt 42);
                    CallSeedTorch (PyInt 42); CallSeedPyro (PyInt 42)] ∧
        log w' = [].
Proof.
  destruct (run_null_model stub_args torch_float32
              (fresh_world (<["models/m.vars.json" := File "null"]> ∅))
              (PyInt 42) 42%Z 42%Z 42%Z (PyStr "DEL") "DEL" (PyStr "models")
              (PyStr "m") "models/m" "null")
    as (w' & Hrun & _ & Hcalls & Hlog);
    try reflexivity.
  exists w'. split; [exact Hrun|]. split; [exact Hcalls | exact Hlog].
Defined.

(** Arguments without a seed, in a process that holds parameters of an
    earlier run. *)
Lemma run_missing_seed_witness :
  ∃ w', run (delete "random_seed" stub_args) torch_float32
          (used_world model_files)
        = (Raise (KeyError "random_seed"), w') ∧
        registry (libs w') = ∅ ∧
        calls w' = [CallClearParamStore; CallClearParamStore].
Proof.
  destruct (run_missing_seed (delete "random_seed" stub_args) torch_float32
              (used_world model_files))
    as (w' & Hrun & Hreg & _ & _ & _ & _ & _ & Hcalls & _);
    [reflexivity|].
  exists w'. split; [exact Hrun|]. split; [exact Hreg | exact Hcalls].
Defined.
